(** * netser-signatures: signature database and detector

    A shallow embedding of [netser_signatures/signatures.py] and
    [netser_signatures/detector.py], and the properties of the matching
    engine proved over it.

    Conventions of the embedding.
    - Python [bytes] are lists of [byte]; Python [str] values are lists of
      Unicode code points ([Z]).
    - [int] is [Z]; an [Optional[...]] argument is an [option]; the truth
      value Python gives to an object ([if port:], [if data:],
      [patterns or []]) is written out by the [truthy_*] functions.
    - Confidence values are Python floats that are only ever compared
      (through [max]); each literal is modelled by the rational it denotes.
    - Exceptions are results: a computation that may raise returns an
      [outcome]. *)

From Stdlib Require Import List ZArith QArith Bool Lia.
From Stdlib Require Import Strings.String Strings.Ascii Strings.Byte.
Import ListNotations.

Local Open Scope Z_scope.

(** ** Exceptions *)

Inductive exn : Type :=
| KeyError (key : string)
| UnicodeDecodeError.

Inductive outcome (A : Type) : Type :=
| Ok (a : A)
| Raise (e : exn).

Arguments Ok {A} a.
Arguments Raise {A} e.

Definition bind {A B : Type} (c : outcome A) (k : A -> outcome B) : outcome B :=
  match c with
  | Ok a => k a
  | Raise e => Raise e
  end.

Notation "x <- c ;; k" := (bind c (fun x => k))
  (at level 61, c at next level, right associativity).

(** ** Bytes and text *)

Definition bytes : Type := list byte.
Definition str : Type := list Z.

(** The value of a byte, [0 .. 255]. *)
Definition byte_val (b : byte) : Z := Z.of_N (Byte.to_N b).

(** A [bytes] literal and an ASCII [str] literal. *)
Definition b_lit (s : string) : bytes := list_byte_of_string s.
Definition u_lit (s : string) : str := List.map byte_val (list_byte_of_string s).

Fixpoint str_eqb (s t : str) : bool :=
  match s, t with
  | [], [] => true
  | a :: s', c :: t' => (a =? c) && str_eqb s' t'
  | _, _ => false
  end.

(** *** [bytes.decode('utf-8', errors=...)]

    The decoder of the interpreter, after [unicode_decode_utf8]: a lead
    byte selects the length of the sequence, each following byte is
    checked in turn, and an error covers the bytes read so far of the
    ill-formed sequence (one for an invalid start byte, the whole rest for
    an unexpected end of data).  The error handler decides what an error
    contributes: nothing ([Ignore]), U+FFFD ([Replace]), or the exception
    ([Strict]). *)

Inductive errors : Type := Strict | Ignore | Replace.

Definition IS_CONTINUATION_BYTE (ch : Z) : bool := (0x80 <=? ch) && (ch <? 0xC0).

Definition on_error (h : errors) (k : outcome str) : outcome str :=
  match h with
  | Strict => Raise UnicodeDecodeError
  | Ignore => k
  | Replace => s <- k ;; Ok (0xFFFD :: s)
  end.

Definition emit (ch : Z) (k : outcome str) : outcome str :=
  s <- k ;; Ok (ch :: s).

Fixpoint decode (h : errors) (s : bytes) : outcome str :=
  match s with
  | [] => Ok []
  | b0 :: s1 =>
    let ch := byte_val b0 in
    if ch <? 0x80 then emit ch (decode h s1)
    else if ch <? 0xC2 then
      (* continuation byte or fake 0000-007F: invalid start byte *)
      on_error h (decode h s1)
    else if ch <? 0xE0 then
      match s1 with
      | [] => on_error h (Ok [])
      | b1 :: s2 =>
        let ch2 := byte_val b1 in
        if negb (IS_CONTINUATION_BYTE ch2) then on_error h (decode h s1)
        else emit (Z.shiftl ch 6 + ch2 - (Z.shiftl 0xC0 6 + 0x80)) (decode h s2)
      end
    else if ch <? 0xF0 then
      match s1 with
      | [] => on_error h (Ok [])
      | b1 :: s2 =>
        let ch2 := byte_val b1 in
        if negb (IS_CONTINUATION_BYTE ch2)
           || (if ch2 <? 0xA0 then ch =? 0xE0 else ch =? 0xED)
        then on_error h (decode h s1)
        else
          match s2 with
          | [] => on_error h (Ok [])
          | b2 :: s3 =>
            let ch3 := byte_val b2 in
            if negb (IS_CONTINUATION_BYTE ch3) then on_error h (decode h s2)
            else emit (Z.shiftl ch 12 + Z.shiftl ch2 6 + ch3
                       - (Z.shiftl 0xE0 12 + Z.shiftl 0x80 6 + 0x80))
                      (decode h s3)
          end
      end
    else if ch <? 0xF5 then
      match s1 with
      | [] => on_error h (Ok [])
      | b1 :: s2 =>
        let ch2 := byte_val b1 in
        if negb (IS_CONTINUATION_BYTE ch2)
           || (if ch2 <? 0x90 then ch =? 0xF0 else ch =? 0xF4)
        then on_error h (decode h s1)
        else
          match s2 with
          | [] => on_error h (Ok [])
          | b2 :: s3 =>
            let ch3 := byte_val b2 in
            if negb (IS_CONTINUATION_BYTE ch3) then on_error h (decode h s2)
            else
              match s3 with
              | [] => on_error h (Ok [])
              | b3 :: s4 =>
                let ch4 := byte_val b3 in
                if negb (IS_CONTINUATION_BYTE ch4) then on_error h (decode h s3)
                else emit (Z.shiftl ch 18 + Z.shiftl ch2 12 + Z.shiftl ch3 6 + ch4
                           - (Z.shiftl 0xF0 18 + Z.shiftl 0x80 12
                              + Z.shiftl 0x80 6 + 0x80))
                          (decode h s4)
              end
          end
      end
    else on_error h (decode h s1)
  end.

(** *** [pattern in data_str] *)

Fixpoint startswith (s prefix : str) {struct prefix} : bool :=
  match prefix, s with
  | [], _ => true
  | _ :: _, [] => false
  | a :: prefix', c :: s' => (a =? c) && startswith s' prefix'
  end.

Fixpoint contains (s sub : str) : bool :=
  startswith s sub ||
  match s with
  | [] => false
  | _ :: s' => contains s' sub
  end.

(** The relation [contains] decides. *)
Definition substring (sub s : str) : Prop :=
  exists before after, s = before ++ sub ++ after.


(** ** Python's truth values and [max] *)

Definition truthy_int (n : Z) : bool := negb (n =? 0).

(** The truth value of an [Optional[int]]: [None] and [0] are false. *)
Definition truthy_port (port : option Z) : bool :=
  match port with
  | Some p => truthy_int p
  | None => false
  end.

Definition truthy_list {A : Type} (l : list A) : bool :=
  match l with
  | [] => false
  | _ :: _ => true
  end.

(** [port or 0] *)
Definition or_0 (port : option Z) : Z :=
  match port with
  | Some p => p
  | None => 0
  end.

Definition Qgtb (x y : Q) : bool :=
  match (x ?= y)%Q with
  | Gt => true
  | _ => false
  end.

(** [max(a, b)]: the first of the largest. *)
Definition max (a b : Q) : Q := if Qgtb b a then b else a.

(** ** signatures.py *)

Record Signature : Type := mkSignature {
  name : str;
  port : Z;
  protocol : str;
  patterns : list str;
  description : str
}.

(** A record of the persisted format, as [json.load] hands it to
    [from_dict]: a key is absent or holds a value of its field's type. *)
Record SignatureDict : Type := mkSignatureDict {
  d_name : option str;
  d_port : option Z;
  d_protocol : option str;
  d_patterns : option (list str);
  d_description : option str
}.

(** [data[key]] and [data.get(key, default)] *)
Definition getitem {A : Type} (key : string) (v : option A) : outcome A :=
  match v with
  | Some a => Ok a
  | None => Raise (KeyError key)
  end.

Definition get {A : Type} (v : option A) (default : A) : A :=
  match v with
  | Some a => a
  | None => default
  end.

Record SignatureDatabase : Type := mkSignatureDatabase {
  signatures : list Signature
}.

Section Signatures.

(** [str.lower] of the interpreter. *)
Variable lower : str -> str.

(** [Signature.__init__] *)
Definition Signature_init (name : str) (port : Z) (protocol : str)
    (patterns : option (list str)) (description : str) : Signature :=
  {| name := name;
     port := port;
     protocol := lower protocol;
     patterns := match patterns with
                 | Some l => if truthy_list l then l else []
                 | None => []
                 end;
     description := description |}.

Definition to_dict (self : Signature) : SignatureDict :=
  {| d_name := Some (name self);
     d_port := Some (port self);
     d_protocol := Some (protocol self);
     d_patterns := Some (patterns self);
     d_description := Some (description self) |}.

Definition from_dict (data : SignatureDict) : outcome Signature :=
  name <- getitem "name" (d_name data) ;;
  port <- getitem "port" (d_port data) ;;
  Ok (Signature_init name port
        (get (d_protocol data) (u_lit "tcp"))
        (Some (get (d_patterns data) []))
        (get (d_description data) [])).

Definition matches_port (self : Signature) (port' : Z) (protocol' : str) : bool :=
  (port self =? port') && str_eqb (lower (protocol self)) (lower protocol').

Definition matches_pattern (self : Signature) (data : bytes) : outcome bool :=
  if negb (truthy_list (patterns self)) then Ok false
  else
    data_str <- decode Ignore data ;;
    Ok (existsb (fun pattern => contains data_str pattern) (patterns self)).

Definition default_signatures : list Signature :=
  [ Signature_init (u_lit "HTTP") 80 (u_lit "tcp")
      (Some [u_lit "HTTP/1.1"; u_lit "HTTP/1.0"; u_lit "GET "; u_lit "POST "])
      (u_lit "Hypertext Transfer Protocol");
    Signature_init (u_lit "HTTPS") 443 (u_lit "tcp")
      (Some [u_lit "TLS"; u_lit "SSL"])
      (u_lit "Secure HTTP over TLS/SSL");
    Signature_init (u_lit "SSH") 22 (u_lit "tcp")
      (Some [u_lit "SSH-2.0"; u_lit "SSH-1.99"])
      (u_lit "Secure Shell Protocol");
    Signature_init (u_lit "FTP") 21 (u_lit "tcp")
      (Some [u_lit "220 "; u_lit "USER "; u_lit "PASS "])
      (u_lit "File Transfer Protocol");
    Signature_init (u_lit "SMTP") 25 (u_lit "tcp")
      (Some [u_lit "220 "; u_lit "EHLO "; u_lit "HELO "])
      (u_lit "Simple Mail Transfer Protocol");
    Signature_init (u_lit "DNS") 53 (u_lit "udp")
      (Some [])
      (u_lit "Domain Name System");
    Signature_init (u_lit "MySQL") 3306 (u_lit "tcp")
      (Some [])
      (u_lit "MySQL Database");
    Signature_init (u_lit "PostgreSQL") 5432 (u_lit "tcp")
      (Some [])
      (u_lit "PostgreSQL Database");
    Signature_init (u_lit "Redis") 6379 (u_lit "tcp")
      (Some [u_lit "+PONG"; u_lit "-ERR"])
      (u_lit "Redis In-Memory Database");
    Signature_init (u_lit "MongoDB") 27017 (u_lit "tcp")
      (Some [])
      (u_lit "MongoDB NoSQL Database") ].

Definition add_signature (self : SignatureDatabase) (signature : Signature)
    : SignatureDatabase :=
  {| signatures := signatures self ++ [signature] |}.

(** [del l[i]], for an index within the list. *)
Definition del_at {A : Type} (i : nat) (l : list A) : list A :=
  firstn i l ++ skipn (S i) l.

(** The loop of [remove_signature]: the index of the first signature of
    [sigs] with the name, counted from [i]. *)
Fixpoint remove_signature_loop (sigs : list Signature) (name' : str) (i : nat)
    : option nat :=
  match sigs with
  | [] => None
  | sig :: rest =>
    if str_eqb (name sig) name' then Some i
    else remove_signature_loop rest name' (S i)
  end.

(** [remove_signature]: the value returned and the database afterwards. *)
Definition remove_signature (self : SignatureDatabase) (name' : str)
    : bool * SignatureDatabase :=
  match remove_signature_loop (signatures self) name' 0 with
  | Some i => (true, {| signatures := del_at i (signatures self) |})
  | None => (false, self)
  end.

Definition find_by_name (self : SignatureDatabase) (name' : str)
    : option Signature :=
  find (fun sig => str_eqb (name sig) name') (signatures self).

(** [get_all_signatures]: a copy of the list. *)
Definition get_all_signatures (self : SignatureDatabase) : list Signature :=
  signatures self.

(** [SignatureDatabase.__len__] *)
Definition len (self : SignatureDatabase) : Z :=
  Z.of_nat (List.length (signatures self)).

(** [SignatureDatabase.__init__], with [_load_default_signatures]. *)
Definition SignatureDatabase_init : SignatureDatabase :=
  fold_left add_signature default_signatures {| signatures := [] |}.

Definition find_by_port (self : SignatureDatabase) (port : Z) (protocol : str)
    : list Signature :=
  filter (fun sig => matches_port sig port protocol) (signatures self).

(** The loop of [find_by_pattern], [matches] being the list built so far. *)
Fixpoint find_by_pattern_loop (sigs : list Signature) (data : bytes)
    (matches : list Signature) : outcome (list Signature) :=
  match sigs with
  | [] => Ok matches
  | sig :: rest =>
    hit <- (if truthy_list (patterns sig) then matches_pattern sig data
            else Ok false) ;;
    find_by_pattern_loop rest data (if hit then matches ++ [sig] else matches)
  end.

Definition find_by_pattern (self : SignatureDatabase) (data : bytes)
    : outcome (list Signature) :=
  find_by_pattern_loop (signatures self) data [].

(** The data of [save_to_file], before [json.dump] writes it. *)
Definition save_to_file (self : SignatureDatabase) : list SignatureDict :=
  List.map to_dict (signatures self).

(** The loop of [load_from_file]: an exception leaves [self] as the
    iterations before it made it. *)
Fixpoint load_from_file_loop (data : list SignatureDict) (self : SignatureDatabase)
    : outcome unit * SignatureDatabase :=
  match data with
  | [] => (Ok tt, self)
  | sig_data :: rest =>
    match from_dict sig_data with
    | Ok sig => load_from_file_loop rest {| signatures := signatures self ++ [sig] |}
    | Raise e => (Raise e, self)
    end
  end.

(** [load_from_file], from the list [json.load] returned. *)
Definition load_from_file (data : list SignatureDict) (self : SignatureDatabase)
    : outcome unit * SignatureDatabase :=
  load_from_file_loop data {| signatures := [] |}.

End Signatures.

(** ** detector.py *)

Record DetectionResult : Type := mkDetectionResult {
  r_port : Z;
  r_protocol : str;
  matches : list Signature;
  confidence : Q
}.

(** [DetectionResult.__init__] *)
Definition DetectionResult_init (port : Z) (protocol : str) : DetectionResult :=
  {| r_port := port; r_protocol := protocol; matches := []; confidence := 0.0%Q |}.

Definition add_match (self : DetectionResult) (signature : Signature)
    (confidence' : Q) : DetectionResult :=
  {| r_port := r_port self;
     r_protocol := r_protocol self;
     matches := matches self ++ [signature];
     confidence := max (confidence self) confidence' |}.

Definition get_best_match (self : DetectionResult) : option Signature :=
  if negb (truthy_list (matches self)) then None
  else nth_error (matches self) 0.

(** The dictionary of [DetectionResult.to_dict]. *)
Record DetectionResultDict : Type := mkDetectionResultDict {
  rd_port : Z;
  rd_protocol : str;
  rd_matches : list str;
  rd_best_match : option str;
  rd_confidence : Q
}.

(** [DetectionResult.to_dict]; a [Signature] object is always true, so
    ["best_match"] is [None] only when there is no best match. *)
Definition DetectionResult_to_dict (self : DetectionResult) : DetectionResultDict :=
  {| rd_port := r_port self;
     rd_protocol := r_protocol self;
     rd_matches := List.map name (matches self);
     rd_best_match :=
       match get_best_match self with
       | Some _ =>
         match get_best_match self with
         | Some sig => Some (name sig)
         | None => None
         end
       | None => None
       end;
     rd_confidence := confidence self |}.

(** A query of [detect_multiple]: the keys ['port'], ['protocol'] and
    ['data'] of the dictionary, each present or not. *)
Record Service : Type := mkService {
  s_port : option Z;
  s_protocol : option str;
  s_data : option bytes
}.

Record SignatureDetector : Type := mkSignatureDetector {
  database : SignatureDatabase
}.

Section Detector.

Variable lower : str -> str.

(** [SignatureDetector.__init__]: [database or SignatureDatabase()].  A
    [SignatureDatabase] has [__len__] and no [__bool__], so an empty one
    is false. *)
Definition SignatureDetector_init (database : option SignatureDatabase)
    : SignatureDetector :=
  {| database :=
       match database with
       | Some db => if negb (len db =? 0) then db else SignatureDatabase_init lower
       | None => SignatureDatabase_init lower
       end |}.

Definition detect_by_port (self : SignatureDetector) (port : Z) (protocol : str)
    : DetectionResult :=
  let result := DetectionResult_init port protocol in
  let matches := find_by_port lower (database self) port protocol in
  fold_left (fun result match_ => add_match result match_ 0.7%Q) matches result.

Definition detect_by_data (self : SignatureDetector) (data : bytes)
    (port : option Z) (protocol : str) : outcome DetectionResult :=
  let result := DetectionResult_init (or_0 port) protocol in
  pattern_matches <- find_by_pattern (database self) data ;;
  let result :=
    fold_left
      (fun result match_ =>
         let confidence := 0.95%Q in
         let confidence :=
           match port with
           | Some p =>
             if truthy_int p && matches_port lower match_ p protocol
             then 1.0%Q else confidence
           | None => confidence
           end in
         add_match result match_ confidence)
      pattern_matches result in
  match port with
  | Some p =>
    if negb (truthy_list pattern_matches) && truthy_int p then
      let port_matches := find_by_port lower (database self) p protocol in
      Ok (fold_left (fun result match_ => add_match result match_ 0.5%Q)
            port_matches result)
    else Ok result
  | None => Ok result
  end.

Definition detect (self : SignatureDetector) (port : Z) (protocol : str)
    (data : option bytes) : outcome DetectionResult :=
  match data with
  | Some d =>
    if truthy_list d then detect_by_data self d (Some port) protocol
    else Ok (detect_by_port self port protocol)
  | None => Ok (detect_by_port self port protocol)
  end.

(** The loop of [detect_multiple], [results] being the list built so far. *)
Fixpoint detect_multiple_loop (self : SignatureDetector) (services : list Service)
    (results : list DetectionResult) : outcome (list DetectionResult) :=
  match services with
  | [] => Ok results
  | service :: rest =>
    let port := s_port service in
    let protocol := get (s_protocol service) (u_lit "tcp") in
    let data := s_data service in
    match port with
    | Some p =>
      if truthy_int p then
        result <- detect self p protocol data ;;
        detect_multiple_loop self rest (results ++ [result])
      else detect_multiple_loop self rest results
    | None => detect_multiple_loop self rest results
    end
  end.

Definition detect_multiple (self : SignatureDetector) (services : list Service)
    : outcome (list DetectionResult) :=
  detect_multiple_loop self services [].

End Detector.

(** ** cli.py

    The namespace [parse_args] returns, and what [main] prints and returns
    from there on.  A command line that [parse_args] refuses leaves [main]
    at that call, with the exit status of [argparse], and is no namespace.
    Each [print] call is an event that carries the values its line is
    formatted from, in the order of the line. *)

Record Namespace : Type := mkNamespace {
  arg_port : option Z;
  arg_protocol : str;
  arg_list : bool;
  arg_info : option str;
  arg_json : bool
}.

Inductive printed : Type :=
| json_dumps_list (output : list SignatureDict)
| known_signatures (total : Z)
| dashes (width : Z)
| signature_row (sig_name sig_protocol : str) (sig_port : Z) (sig_description : str)
| json_dumps_signature (output : SignatureDict)
| info_signature (sig_name : str)
| info_port (sig_port : Z)
| info_protocol (sig_protocol : str)
| info_description (sig_description : str)
| info_patterns (sig_patterns : list str)
| error_not_found (info : str)
| json_dumps_result (output : DetectionResultDict)
| detected_as (port' : Z) (protocol' : str)
| service (best_name : str)
| service_description (best_description : str)
| service_confidence (confidence' : Q)
| other_possible_matches
| other_match (sig_name sig_description : str)
| no_known_signature (port' : Z) (protocol' : str)
| print_help.

(** How a run of [main] ends: with its return value, or with the
    [AttributeError] of [best.name] on [None]. *)
Inductive ending : Type :=
| Return (code : Z)
| AttributeError.

Record run : Type := mkRun {
  stdout : list printed;
  stderr : list printed;
  outcome_of : ending
}.

(** The truth value of an [Optional[str]]. *)
Definition truthy_str (s : option str) : bool :=
  match s with
  | Some text => truthy_list text
  | None => false
  end.

Section Cli.

Variable lower : str -> str.

(** [str.upper] of the interpreter. *)
Variable upper : str -> str.

Definition main (args : Namespace) : run :=
  let detector := SignatureDetector_init lower None in
  if arg_list args then
    let signatures := get_all_signatures (database detector) in
    if arg_json args then
      let output := List.map to_dict signatures in
      {| stdout := [json_dumps_list output]; stderr := [];
         outcome_of := Return 0 |}
    else
      {| stdout :=
           [known_signatures (Z.of_nat (List.length signatures)); dashes 60]
           ++ List.map
                (fun sig => signature_row (name sig) (upper (protocol sig))
                              (port sig) (description sig))
                signatures;
         stderr := [];
         outcome_of := Return 0 |}
  else if truthy_str (arg_info args) then
    let info := get (arg_info args) [] in
    match find_by_name (database detector) info with
    | Some sig =>
      if arg_json args then
        {| stdout := [json_dumps_signature (to_dict sig)]; stderr := [];
           outcome_of := Return 0 |}
      else
        {| stdout :=
             [info_signature (name sig); info_port (port sig);
              info_protocol (upper (protocol sig));
              info_description (description sig)]
             ++ (if truthy_list (patterns sig) then [info_patterns (patterns sig)]
                 else []);
           stderr := [];
           outcome_of := Return 0 |}
    | None =>
      {| stdout := []; stderr := [error_not_found info]; outcome_of := Return 1 |}
    end
  else
    match arg_port args with
    | Some p =>
      if truthy_int p then
        let result := detect_by_port lower detector p (arg_protocol args) in
        if arg_json args then
          {| stdout := [json_dumps_result (DetectionResult_to_dict result)];
             stderr := [];
             outcome_of := Return 0 |}
        else if truthy_list (matches result) then
          match get_best_match result with
          | Some best =>
            {| stdout :=
                 [detected_as p (upper (arg_protocol args));
                  service (name best);
                  service_description (description best);
                  service_confidence (confidence result)]
                 ++ (if 1 <? Z.of_nat (List.length (matches result))
                     then other_possible_matches
                          :: List.map
                               (fun sig => other_match (name sig) (description sig))
                               (skipn 1 (matches result))
                     else []);
               stderr := [];
               outcome_of := Return 0 |}
          | None =>
            {| stdout := [detected_as p (upper (arg_protocol args))];
               stderr := [];
               outcome_of := AttributeError |}
          end
        else
          {| stdout := [no_known_signature p (upper (arg_protocol args))];
             stderr := [];
             outcome_of := Return 0 |}
      else
        {| stdout := [print_help]; stderr := []; outcome_of := Return 0 |}
    | None =>
      {| stdout := [print_help]; stderr := []; outcome_of := Return 0 |}
    end.

End Cli.

(** ** Lowercasing of ASCII text

    On text of code points below 128 [str.lower] maps [A-Z] to [a-z]; this
    instance serves the concrete runs. *)

Definition ascii_lower_char (c : Z) : Z :=
  if (65 <=? c) && (c <=? 90) then c + 32 else c.

Definition ascii_lower (s : str) : str := List.map ascii_lower_char s.

(** [str.upper] on ASCII text, likewise. *)
Definition ascii_upper (s : str) : str :=
  List.map (fun c => if (97 <=? c) && (c <=? 122) then c - 32 else c) s.

(** The detector of the default database. *)
Definition default_detector : SignatureDetector :=
  {| database := SignatureDatabase_init ascii_lower |}.

(** ** Notions the statements use *)

(** A sequence of [add_match] calls, each with its signature and the
    confidence it supplies. *)
Definition add_matches (calls : list (Signature * Q)) (self : DetectionResult)
    : DetectionResult :=
  fold_left (fun result call => add_match result (fst call) (snd call)) calls self.

(** The protocol of a signature is in lower case, as [Signature.__init__]
    leaves it. *)
Definition normalized (lower : str -> str) (sig : Signature) : Prop :=
  lower (protocol sig) = protocol sig.

(** A persisted record without ['name'] or without ['port']. *)
Definition lacks_required (data : SignatureDict) : bool :=
  match d_name data, d_port data with
  | Some _, Some _ => false
  | _, _ => true
  end.

(** A signature has patterns and one of them occurs in [text]. *)
Definition pattern_hit (text : str) (sig : Signature) : bool :=
  truthy_list (patterns sig) && existsb (contains text) (patterns sig).

(** The confidence the loop of [detect_by_data] supplies for a pattern
    match, and the calls of its port fallback. *)
Definition pattern_confidence (lower : str -> str) (port : option Z)
    (protocol : str) (sig : Signature) : Q :=
  match port with
  | Some p =>
    if truthy_int p && matches_port lower sig p protocol then 1.0%Q else 0.95%Q
  | None => 0.95%Q
  end.

Definition fallback_calls (lower : str -> str) (self : SignatureDetector)
    (port : option Z) (protocol : str) (pattern_matches : list Signature)
    : list (Signature * Q) :=
  match port with
  | Some p =>
    if negb (truthy_list pattern_matches) && truthy_int p
    then List.map (fun sig => (sig, 0.5%Q))
                  (find_by_port lower (database self) p protocol)
    else []
  | None => []
  end.

(** A computation that raises nothing. *)
Definition returns {A : Type} (c : outcome A) : Prop := exists a, c = Ok a.

(** The query a service of [detect_multiple] stands for, and its result. *)
Definition service_result (lower : str -> str) (self : SignatureDetector)
    (service : Service) (result : DetectionResult) : Prop :=
  exists p,
    s_port service = Some p /\ p <> 0
    /\ detect lower self p (get (s_protocol service) (u_lit "tcp")) (s_data service)
       = Ok result.

(** The state a failed import leaves: the signatures of the records
    before the first one that lacks a required key. *)
Definition failed_import (lower : str -> str) (data : list SignatureDict)
    (key : string) (imported : list Signature) : Prop :=
  exists before bad after,
    data = before ++ bad :: after
    /\ Forall2 (fun sig_data sig => from_dict lower sig_data = Ok sig)
         before imported
    /\ lacks_required bad = true
    /\ from_dict lower bad = Raise (KeyError key).

(** No signature of the list has the name. *)
Definition absent (name' : str) (sigs : list Signature) : Prop :=
  Forall (fun sig => name sig <> name') sigs.

(** The number of signatures of the list with the name. *)
Definition count_name (name' : str) (sigs : list Signature) : nat :=
  List.length (filter (fun sig => str_eqb (name sig) name') sigs).

(** ** Sample inputs *)

(** A banner with a byte that is not UTF-8 in the middle of [HTTP/1.1]. *)
Definition broken_banner : bytes := b_lit "HT" ++ [xff] ++ b_lit "TP/1.1".

(** A signature on port 0, and the default database with it added. *)
Definition zero_port_signature : Signature :=
  Signature_init ascii_lower (u_lit "PING") 0 (u_lit "tcp")
    (Some [u_lit "PING"]) (u_lit "Echo on port zero").

Definition zero_port_detector : SignatureDetector :=
  {| database :=
       add_signature (SignatureDatabase_init ascii_lower) zero_port_signature |}.

(** A signature with the empty pattern, and the default database with it
    added. *)
Definition any_signature : Signature :=
  Signature_init ascii_lower (u_lit "ANY") 9 (u_lit "tcp")
    (Some [u_lit "DISCARD"; []]) [].

Definition any_detector : SignatureDetector :=
  {| database :=
       add_signature (SignatureDatabase_init ascii_lower) any_signature |}.

(** A persisted list whose second record has no ['port']. *)
Definition telnet_record : SignatureDict :=
  {| d_name := Some (u_lit "Telnet");
     d_port := Some 23;
     d_protocol := None;
     d_patterns := None;
     d_description := None |}.

Definition portless_record : SignatureDict :=
  {| d_name := Some (u_lit "Gopher");
     d_port := None;
     d_protocol := Some (u_lit "tcp");
     d_patterns := None;
     d_description := None |}.

Definition malformed_records : list SignatureDict :=
  [telnet_record; portless_record; telnet_record].

(** * Properties *)

(** ** The outcome monad *)

Lemma Ok_inj {A : Type} (a a' : A) : Ok a = Ok a' -> a = a'.
Proof. intros H. now injection H. Qed.

(** ** Decoding *)

Lemma returns_emit ch k : returns k -> returns (emit ch k).
Proof. intros [t ->]. eexists. reflexivity. Qed.

Lemma returns_on_error h k : h <> Strict -> returns k -> returns (on_error h k).
Proof.
  intros Hh [t ->]. destruct h; [congruence | |]; eexists; reflexivity.
Qed.

Lemma returns_Ok {A : Type} (a : A) : returns (Ok a).
Proof. eexists. reflexivity. Qed.

(** With a handler other than [Strict] the decoder raises nothing.  The
    recursion skips up to four bytes, hence the bound on the length. *)
Lemma decode_returns_bounded h (Hh : h <> Strict) :
  forall n s, (List.length s <= n)%nat -> returns (decode h s).
Proof.
  induction n as [|n IH]; intros s Hlen.
  - destruct s; [apply returns_Ok | simpl in Hlen; lia].
  - destruct s as [|b0 s1]; [apply returns_Ok|].
    simpl in Hlen.
    assert (H1 : returns (decode h s1)) by (apply IH; lia).
    assert (Htail : forall s', (List.length s' <= List.length s1)%nat -> returns (decode h s'))
      by (intros; apply IH; lia).
    cbn [decode].
    repeat match goal with
           | |- returns (if ?c then _ else _) => destruct c
           | |- returns (match ?l with [] => _ | _ :: _ => _ end) =>
             destruct l; cbn [List.length] in *
           | |- returns (emit _ _) => apply returns_emit
           | |- returns (on_error _ _) => apply returns_on_error; [exact Hh|]
           | |- returns (Ok _) => apply returns_Ok
           | |- returns (decode _ _) => apply Htail; cbn [List.length]; lia
           end.
Qed.

Lemma decode_returns h s : h <> Strict -> returns (decode h s).
Proof. intros Hh. apply (decode_returns_bounded h Hh (List.length s)). lia. Qed.

Lemma decode_Ignore_returns s : exists text, decode Ignore s = Ok text.
Proof. apply decode_returns. discriminate. Qed.

(** ** Substrings *)

Lemma startswith_spec s prefix :
  startswith s prefix = true <-> exists after, s = prefix ++ after.
Proof.
  revert s. induction prefix as [|a prefix IH]; intros s; simpl.
  - split; [intros _; exists s; reflexivity | reflexivity].
  - destruct s as [|c s].
    + split; [discriminate | intros [after H]; discriminate].
    + rewrite andb_true_iff, Z.eqb_eq, IH. split.
      * intros [-> [after ->]]. exists after. reflexivity.
      * intros [after H]. injection H as -> ->. split; [reflexivity|].
        exists after. reflexivity.
Qed.

Lemma contains_spec s sub : contains s sub = true <-> substring sub s.
Proof.
  unfold substring. induction s as [|c s IH]; simpl.
  - rewrite orb_false_r, startswith_spec. split.
    + intros [after H]. exists [], after. exact H.
    + intros [before [after H]]. destruct before; simpl in H.
      * exists after. exact H.
      * discriminate.
  - rewrite orb_true_iff, startswith_spec, IH. split.
    + intros [[after H] | [before [after H]]].
      * exists [], after. exact H.
      * exists (c :: before), after. simpl. now rewrite H.
    + intros [before [after H]]. destruct before as [|c' before]; simpl in H.
      * left. exists after. exact H.
      * right. injection H as _ H. exists before, after. exact H.
Qed.

Lemma contains_empty s : contains s [] = true.
Proof. destruct s; reflexivity. Qed.

(** ** [max] on confidences *)

Lemma Qgtb_true x y : Qgtb x y = true <-> (y < x)%Q.
Proof.
  unfold Qgtb. rewrite (Qgt_alt x y).
  destruct (x ?= y)%Q; split; congruence.
Qed.

Lemma Qgtb_false x y : Qgtb x y = false <-> (x <= y)%Q.
Proof.
  unfold Qgtb. rewrite (Qle_alt x y).
  destruct (x ?= y)%Q; split; congruence.
Qed.

Lemma max_cases a b : max a b = a \/ max a b = b.
Proof. unfold max. destruct (Qgtb b a); auto. Qed.

Lemma max_ge_l a b : (a <= max a b)%Q.
Proof.
  unfold max. destruct (Qgtb b a) eqn:E.
  - apply Qlt_le_weak, Qgtb_true, E.
  - apply Qle_refl.
Qed.

Lemma max_ge_r a b : (b <= max a b)%Q.
Proof.
  unfold max. destruct (Qgtb b a) eqn:E.
  - apply Qle_refl.
  - apply Qgtb_false, E.
Qed.

(** ** Sequences of [add_match] calls *)

Lemma add_matches_app calls calls' self :
  add_matches (calls ++ calls') self = add_matches calls' (add_matches calls self).
Proof. apply fold_left_app. Qed.

Lemma add_matches_map (conf : Signature -> Q) sigs self :
  fold_left (fun result match_ => add_match result match_ (conf match_)) sigs self
  = add_matches (List.map (fun sig => (sig, conf sig)) sigs) self.
Proof.
  revert self. induction sigs as [|sig sigs IH]; intros self; simpl.
  - reflexivity.
  - apply IH.
Qed.

Lemma add_matches_cons sig c calls self :
  add_matches ((sig, c) :: calls) self = add_matches calls (add_match self sig c).
Proof. reflexivity. Qed.

Lemma matches_add_matches calls self :
  matches (add_matches calls self) = matches self ++ List.map fst calls.
Proof.
  revert self. induction calls as [|[sig c] calls IH]; intros self.
  - simpl. now rewrite app_nil_r.
  - rewrite add_matches_cons, IH. simpl. now rewrite <- app_assoc.
Qed.

Lemma r_port_add_matches calls self :
  r_port (add_matches calls self) = r_port self
  /\ r_protocol (add_matches calls self) = r_protocol self.
Proof.
  revert self. induction calls as [|[sig c] calls IH]; intros self.
  - simpl. auto.
  - rewrite add_matches_cons. destruct (IH (add_match self sig c)) as [-> ->].
    auto.
Qed.

(** The confidence after the calls is the one before or one a call
    supplied, and it is below none of them. *)
Lemma confidence_add_matches calls self :
  (confidence (add_matches calls self) = confidence self
   \/ exists call, In call calls
        /\ confidence (add_matches calls self) = snd call)
  /\ (confidence self <= confidence (add_matches calls self))%Q
  /\ Forall (fun call => (snd call <= confidence (add_matches calls self))%Q) calls.
Proof.
  revert self. induction calls as [|[sig c] calls IH]; intros self.
  - simpl. repeat split; [now left | apply Qle_refl | constructor].
  - rewrite add_matches_cons.
    destruct (IH (add_match self sig c)) as [Hin [Hle Hall]].
    simpl confidence at 2 3 in Hin. simpl confidence at 1 in Hle.
    repeat split.
    + destruct Hin as [-> | [call [Hc ->]]].
      * destruct (max_cases (confidence self) c) as [-> | ->].
        -- now left.
        -- right. exists (sig, c). split; [now left | reflexivity].
      * right. exists call. split; [now right | reflexivity].
    + eapply Qle_trans; [apply max_ge_l | exact Hle].
    + constructor; [|exact Hall]. simpl.
      eapply Qle_trans; [apply max_ge_r | exact Hle].
Qed.

(** ** [DetectionResult] *)

(** C5. [get_best_match] returns the first element of [matches], and
    nothing when [matches] is empty.  After a sequence of [add_match] calls
    on a fresh result it is the signature of the first call, whatever the
    confidences of the later calls; in particular a later call with a
    strictly higher confidence does not change it. *)
Theorem get_best_match_first :
  (forall self,
     get_best_match self =
     match matches self with
     | [] => None
     | first :: _ => Some first
     end)
  /\ (forall port protocol sig c calls,
        get_best_match
          (add_matches ((sig, c) :: calls) (DetectionResult_init port protocol))
        = Some sig)
  /\ (forall port protocol first later,
        let result :=
          add_matches [(first, 0.5%Q); (later, 1.0%Q)]
                      (DetectionResult_init port protocol) in
        get_best_match result = Some first /\ confidence result = 1.0%Q).
Proof.
  split; [|split].
  - intros self. unfold get_best_match. destruct (matches self); reflexivity.
  - intros port protocol sig c calls. unfold get_best_match.
    rewrite matches_add_matches. reflexivity.
  - intros port protocol first later. split; reflexivity.
Qed.

Lemma detect_by_port_calls lower self port protocol :
  detect_by_port lower self port protocol
  = add_matches
      (List.map (fun sig => (sig, 0.7%Q))
                (find_by_port lower (database self) port protocol))
      (DetectionResult_init port protocol).
Proof. unfold detect_by_port. apply add_matches_map. Qed.


(** ** Pattern lookup *)

Lemma str_eqb_eq s t : str_eqb s t = true <-> s = t.
Proof.
  revert t. induction s as [|a s IH]; intros [|c t]; simpl;
    try (split; [discriminate | congruence]).
  - split; reflexivity.
  - rewrite andb_true_iff, Z.eqb_eq, IH. split.
    + intros [-> ->]. reflexivity.
    + intros H. injection H as -> ->. auto.
Qed.

Lemma truthy_list_true {A : Type} (l : list A) : truthy_list l = true <-> l <> [].
Proof. destruct l; simpl; split; congruence. Qed.

Lemma pattern_hit_spec text sig :
  pattern_hit text sig = true <->
  patterns sig <> [] /\ exists pattern, In pattern (patterns sig) /\ substring pattern text.
Proof.
  unfold pattern_hit.
  rewrite andb_true_iff, truthy_list_true, existsb_exists.
  split; intros [Hne [pattern [Hin Hsub]]]; (split; [exact Hne|]);
    exists pattern; (split; [exact Hin|]); now apply contains_spec.
Qed.

Lemma matches_pattern_decoded sig data text :
  decode Ignore data = Ok text ->
  matches_pattern sig data = Ok (existsb (contains text) (patterns sig)).
Proof.
  intros Hd. unfold matches_pattern. rewrite Hd.
  destruct (patterns sig); reflexivity.
Qed.

Lemma find_by_pattern_loop_filter data text :
  decode Ignore data = Ok text ->
  forall sigs acc,
    find_by_pattern_loop sigs data acc = Ok (acc ++ filter (pattern_hit text) sigs).
Proof.
  intros Hd. induction sigs as [|sig sigs IH]; intros acc; simpl.
  - now rewrite app_nil_r.
  - unfold pattern_hit at 1.
    destruct (truthy_list (patterns sig)); simpl.
    + rewrite (matches_pattern_decoded sig data text Hd). simpl.
      rewrite IH. destruct (existsb (contains text) (patterns sig)).
      * now rewrite <- app_assoc.
      * reflexivity.
    + apply IH.
Qed.

Lemma find_by_pattern_filter self data text :
  decode Ignore data = Ok text ->
  find_by_pattern self data = Ok (filter (pattern_hit text) (signatures self)).
Proof.
  intros Hd. unfold find_by_pattern.
  rewrite (find_by_pattern_loop_filter data text Hd). reflexivity.
Qed.

(** C1, as the code has it.  [find_by_pattern] decodes the sample as UTF-8
    with the undecodable bytes dropped, which raises nothing, and returns,
    in the order of the collection, the signatures whose pattern list is
    not empty and has a pattern that is a substring of the decoded text. *)
Theorem find_by_pattern_ignores_undecodable self data :
  exists text keep,
    decode Ignore data = Ok text
    /\ find_by_pattern self data = Ok (filter keep (signatures self))
    /\ forall sig,
         keep sig = true <->
         patterns sig <> []
         /\ exists pattern, In pattern (patterns sig) /\ substring pattern text.
Proof.
  destruct (decode_Ignore_returns data) as [text Hd].
  exists text, (pattern_hit text). split; [exact Hd|]. split.
  - now apply find_by_pattern_filter.
  - intros sig. apply pattern_hit_spec.
Qed.

(** ** [detect_by_data] *)

Lemma detect_by_data_calls lower self data port protocol pattern_matches :
  find_by_pattern (database self) data = Ok pattern_matches ->
  detect_by_data lower self data port protocol
  = Ok (add_matches
          (List.map (fun sig => (sig, pattern_confidence lower port protocol sig))
                    pattern_matches
           ++ fallback_calls lower self port protocol pattern_matches)
          (DetectionResult_init (or_0 port) protocol)).
Proof.
  intros Hfind. unfold detect_by_data. rewrite Hfind. simpl bind.
  rewrite add_matches_app. unfold fallback_calls.
  destruct port as [p|]; simpl pattern_confidence.
  - rewrite (add_matches_map
               (fun sig => if truthy_int p && matches_port lower sig p protocol
                           then 1.0%Q else 0.95%Q)).
    destruct (negb (truthy_list pattern_matches) && truthy_int p).
    + rewrite add_matches_map. reflexivity.
    + reflexivity.
  - rewrite (add_matches_map (fun _ => 0.95%Q)). reflexivity.
Qed.

Lemma find_by_pattern_returns self data :
  exists pattern_matches, find_by_pattern self data = Ok pattern_matches.
Proof.
  destruct (decode_Ignore_returns data) as [text Hd].
  eexists. apply find_by_pattern_filter. exact Hd.
Qed.

Lemma matches_port_spec lower sig p supplied_protocol :
  matches_port lower sig p supplied_protocol = true <->
  port sig = p /\ lower (protocol sig) = lower supplied_protocol.
Proof.
  unfold matches_port. now rewrite andb_true_iff, Z.eqb_eq, str_eqb_eq.
Qed.

Lemma truthy_int_true p : truthy_int p = true <-> p <> 0.
Proof.
  unfold truthy_int. rewrite negb_true_iff, Z.eqb_neq. reflexivity.
Qed.

Lemma pattern_confidence_spec lower supplied_port supplied_protocol sig :
  let confirmed :=
    exists p, supplied_port = Some p /\ p <> 0 /\ port sig = p
              /\ lower (protocol sig) = lower supplied_protocol in
  (confirmed -> pattern_confidence lower supplied_port supplied_protocol sig = 1.0%Q)
  /\ (~ confirmed ->
      pattern_confidence lower supplied_port supplied_protocol sig = 0.95%Q).
Proof.
  intros confirmed. unfold pattern_confidence.
  destruct supplied_port as [p|].
  - destruct (truthy_int p && matches_port lower sig p supplied_protocol) eqn:E.
    + split; [reflexivity|]. intros Hn. exfalso. apply Hn.
      apply andb_true_iff in E. destruct E as [Hp Hm].
      apply truthy_int_true in Hp. apply matches_port_spec in Hm.
      exists p. tauto.
    + split; [|reflexivity]. intros [p' [Hs [Hp [Hport Hproto]]]].
      injection Hs as <-.
      assert (truthy_int p && matches_port lower sig p supplied_protocol = true)
        as E'; [|congruence].
      apply andb_true_iff. split.
      * now apply truthy_int_true.
      * now apply matches_port_spec.
  - split; [|reflexivity]. intros [p [Hs _]]. discriminate.
Qed.

(** C2, as the code has it.  In [detect_by_data] the signatures that
    [find_by_pattern] returns are added first, in their order, each with a
    confidence of its own: exactly 1.0 when the supplied port is not zero,
    the port of the signature is the supplied port and its protocol is the
    supplied protocol up to case, and exactly 0.95 otherwise (also when the
    supplied port is 0). *)
Theorem pattern_match_confidence lower self data supplied_port supplied_protocol :
  exists pattern_matches conf,
    find_by_pattern (database self) data = Ok pattern_matches
    /\ detect_by_data lower self data supplied_port supplied_protocol
       = Ok (add_matches
               (List.map (fun sig => (sig, conf sig)) pattern_matches
                ++ fallback_calls lower self supplied_port supplied_protocol
                     pattern_matches)
               (DetectionResult_init (or_0 supplied_port) supplied_protocol))
    /\ forall sig,
         let confirmed :=
           exists p, supplied_port = Some p /\ p <> 0 /\ port sig = p
                     /\ lower (protocol sig) = lower supplied_protocol in
         (confirmed -> conf sig = 1.0%Q) /\ (~ confirmed -> conf sig = 0.95%Q).
Proof.
  destruct (find_by_pattern_returns (database self) data) as [pattern_matches Hf].
  exists pattern_matches, (pattern_confidence lower supplied_port supplied_protocol).
  split; [exact Hf|]. split.
  - now apply detect_by_data_calls.
  - intros sig. apply pattern_confidence_spec.
Qed.

(** C3, as the code has it.  In [detect_by_data] the port fallback is
    taken exactly when no pattern matched and the supplied port is not
    zero: the result is then that of adding every signature of
    [find_by_port] with confidence 0.5.  When a pattern matched, or no port
    or the port 0 was supplied, the only calls are those of the pattern
    matches. *)
Theorem port_fallback lower self data supplied_port supplied_protocol :
  exists pattern_matches pattern_calls,
    find_by_pattern (database self) data = Ok pattern_matches
    /\ List.map fst pattern_calls = pattern_matches
    /\ (forall p,
         supplied_port = Some p -> p <> 0 -> pattern_matches = [] ->
         detect_by_data lower self data supplied_port supplied_protocol
         = Ok (add_matches
                 (List.map (fun sig => (sig, 0.5%Q))
                    (find_by_port lower (database self) p supplied_protocol))
                 (DetectionResult_init p supplied_protocol)))
    /\ (pattern_matches <> [] \/ supplied_port = None \/ supplied_port = Some 0 ->
        detect_by_data lower self data supplied_port supplied_protocol
        = Ok (add_matches pattern_calls
                (DetectionResult_init (or_0 supplied_port) supplied_protocol))).
Proof.
  destruct (find_by_pattern_returns (database self) data) as [pattern_matches Hf].
  exists pattern_matches,
    (List.map (fun sig => (sig, pattern_confidence lower supplied_port
                                  supplied_protocol sig)) pattern_matches).
  split; [exact Hf|]. split; [|split].
  - rewrite map_map. simpl. apply map_id.
  - intros p -> Hp ->.
    rewrite (detect_by_data_calls _ _ _ _ _ _ Hf). unfold fallback_calls.
    apply truthy_int_true in Hp. rewrite Hp. reflexivity.
  - intros Hcase. rewrite (detect_by_data_calls _ _ _ _ _ _ Hf).
    assert (fallback_calls lower self supplied_port supplied_protocol
              pattern_matches = []) as ->; [|now rewrite app_nil_r].
    unfold fallback_calls.
    destruct Hcase as [Hne | [-> | ->]].
    + destruct supplied_port; [|reflexivity].
      apply truthy_list_true in Hne. now rewrite Hne.
    + reflexivity.
    + change (truthy_int 0) with false. now rewrite andb_false_r.
Qed.

Lemma detect_by_data_returns lower self data supplied_port supplied_protocol :
  exists result,
    detect_by_data lower self data supplied_port supplied_protocol = Ok result.
Proof.
  destruct (find_by_pattern_returns (database self) data) as [pattern_matches Hf].
  eexists. apply detect_by_data_calls. exact Hf.
Qed.

Lemma pattern_confidence_cases lower supplied_port supplied_protocol sig :
  pattern_confidence lower supplied_port supplied_protocol sig = 0.95%Q
  \/ pattern_confidence lower supplied_port supplied_protocol sig = 1.0%Q.
Proof.
  unfold pattern_confidence. destruct supplied_port as [p|]; [|now left].
  destruct (truthy_int p && matches_port lower sig p supplied_protocol); auto.
Qed.

(** ** [detect] and [detect_multiple] *)

Lemma detect_returns lower self p supplied_protocol data :
  exists result, detect lower self p supplied_protocol data = Ok result.
Proof.
  unfold detect. destruct data as [[|b0 d]|]; simpl.
  - eexists. reflexivity.
  - apply detect_by_data_returns.
  - eexists. reflexivity.
Qed.

(** C8, as the code has it.  [detect] returns the result of
    [detect_by_data] with the given port and protocol whenever the data
    supplied is not empty, also for the port 0, and the result of
    [detect_by_port] when no data or empty data is supplied; it raises
    nothing. *)
Theorem detect_dispatch lower self p supplied_protocol :
  (forall data,
     data <> [] ->
     detect lower self p supplied_protocol (Some data)
     = detect_by_data lower self data (Some p) supplied_protocol)
  /\ detect lower self p supplied_protocol (Some [])
     = Ok (detect_by_port lower self p supplied_protocol)
  /\ detect lower self p supplied_protocol None
     = Ok (detect_by_port lower self p supplied_protocol)
  /\ forall data,
       exists result, detect lower self p supplied_protocol data = Ok result.
Proof.
  split; [|split; [|split]].
  - intros [|b0 d] Hne; [congruence | reflexivity].
  - reflexivity.
  - reflexivity.
  - intros data. apply detect_returns.
Qed.

Lemma detect_multiple_loop_spec lower self services :
  forall results,
  exists more,
    detect_multiple_loop lower self services results = Ok (results ++ more)
    /\ Forall2 (service_result lower self)
         (filter (fun service => truthy_port (s_port service)) services) more.
Proof.
  induction services as [|service services IH]; intros results.
  - exists []. simpl. rewrite app_nil_r. split; [reflexivity | constructor].
  - cbn [detect_multiple_loop filter].
    destruct (s_port service) as [p|] eqn:Hport; cbn [truthy_port].
    + destruct (truthy_int p) eqn:Hp.
      * destruct (detect_returns lower self p
                    (get (s_protocol service) (u_lit "tcp")) (s_data service))
          as [result Hd].
        rewrite Hd. cbn [bind].
        destruct (IH (results ++ [result])) as [more [Hloop Hall]].
        exists (result :: more). split.
        -- rewrite Hloop, <- app_assoc. reflexivity.
        -- constructor; [|exact Hall].
           exists p. apply truthy_int_true in Hp. auto.
      * apply IH.
    + apply IH.
Qed.

(** C9. [detect_multiple] raises nothing.  It passes over the services
    whose port is absent or zero, and its results are the results of
    [detect] on the other services, one for each and in their order. *)
Theorem detect_multiple_skips lower self services :
  exists results,
    detect_multiple lower self services = Ok results
    /\ Forall2 (service_result lower self)
         (filter (fun service => truthy_port (s_port service)) services)
         results.
Proof.
  destruct (detect_multiple_loop_spec lower self services []) as [more H].
  exists more. exact H.
Qed.

(** C10. A signature with the empty string among its patterns matches
    every sample: [matches_pattern] is true on all data, [find_by_pattern]
    returns the signature when the database holds it, and so does
    [detect_by_data], with confidence 0.95 or 1.0. *)
Theorem empty_pattern_matches_everything lower self sig data supplied_port
    supplied_protocol :
  In [] (patterns sig) ->
  In sig (signatures (database self)) ->
  matches_pattern sig data = Ok true
  /\ (exists pattern_matches,
        find_by_pattern (database self) data = Ok pattern_matches
        /\ In sig pattern_matches)
  /\ exists result,
       detect_by_data lower self data supplied_port supplied_protocol = Ok result
       /\ In sig (matches result)
       /\ (confidence result = 0.95%Q \/ confidence result = 1.0%Q).
Proof.
  intros Hempty Hdb.
  destruct (decode_Ignore_returns data) as [text Hd].
  assert (Hex : existsb (contains text) (patterns sig) = true).
  { apply existsb_exists. exists []. split; [exact Hempty | apply contains_empty]. }
  assert (Hhit : pattern_hit text sig = true).
  { unfold pattern_hit. rewrite Hex.
    destruct (patterns sig); [contradiction | reflexivity]. }
  pose proof (find_by_pattern_filter (database self) data text Hd) as Hf.
  assert (Hin : In sig (filter (pattern_hit text) (signatures (database self)))).
  { apply filter_In. split; assumption. }
  split; [|split].
  - rewrite (matches_pattern_decoded sig data text Hd), Hex. reflexivity.
  - eexists. split; [exact Hf | exact Hin].
  - eexists. split; [apply detect_by_data_calls; exact Hf|].
    set (pattern_matches := filter (pattern_hit text) (signatures (database self))) in *.
    assert (Hfb : fallback_calls lower self supplied_port supplied_protocol
                    pattern_matches = []).
    { unfold fallback_calls. destruct pattern_matches; [contradiction|].
      destruct supplied_port; reflexivity. }
    rewrite Hfb, app_nil_r. split.
    + rewrite matches_add_matches, map_map. simpl. now rewrite map_id.
    + destruct (confidence_add_matches
                  (List.map (fun s => (s, pattern_confidence lower supplied_port
                                            supplied_protocol s)) pattern_matches)
                  (DetectionResult_init (or_0 supplied_port) supplied_protocol))
        as [[Heq | [call [Hcall Heq]]] [_ Hall]].
      * exfalso. rewrite Forall_forall in Hall.
        specialize (Hall (sig, pattern_confidence lower supplied_port
                                 supplied_protocol sig)).
        rewrite Heq in Hall. simpl in Hall.
        assert (Hle : (pattern_confidence lower supplied_port supplied_protocol sig
                       <= 0.0)%Q).
        { apply Hall. apply in_map_iff. exists sig. auto. }
        destruct (pattern_confidence_cases lower supplied_port supplied_protocol sig)
          as [E | E]; rewrite E in Hle; now apply Hle.
      * rewrite Heq. apply in_map_iff in Hcall.
        destruct Hcall as [s' [<- _]]. apply pattern_confidence_cases.
Qed.

(** ** Export and import *)

Lemma from_dict_to_dict lower sig :
  normalized lower sig -> from_dict lower (to_dict sig) = Ok sig.
Proof.
  unfold normalized. destruct sig as [n p proto pats descr]. simpl.
  intros Hproto. unfold from_dict, Signature_init. simpl. rewrite Hproto.
  destruct pats; reflexivity.
Qed.

(** What [Signature.__init__] builds is normalized, [str.lower] being
    idempotent. *)
Lemma Signature_init_normalized lower n p proto pats descr :
  (forall s, lower (lower s) = lower s) ->
  normalized lower (Signature_init lower n p proto pats descr).
Proof. intros Hidem. unfold normalized. simpl. apply Hidem. Qed.

Lemma from_dict_normalized lower data sig :
  (forall s, lower (lower s) = lower s) ->
  from_dict lower data = Ok sig -> normalized lower sig.
Proof.
  intros Hidem. unfold from_dict.
  destruct (d_name data); [|discriminate].
  destruct (d_port data); [|discriminate].
  simpl. intros H. injection H as <-. now apply Signature_init_normalized.
Qed.

Lemma load_from_file_loop_Ok lower data imported :
  Forall2 (fun sig_data sig => from_dict lower sig_data = Ok sig) data imported ->
  forall self,
    load_from_file_loop lower data self
    = (Ok tt, {| signatures := signatures self ++ imported |}).
Proof.
  induction 1 as [|sig_data sig data imported Hd _ IH]; intros self; simpl.
  - rewrite app_nil_r. now destruct self.
  - rewrite Hd, IH. simpl. now rewrite <- app_assoc.
Qed.

(** C7. Importing what a database exports gives the database back: each
    exported record deserializes to the signature it came from, equal in
    name, port, protocol, patterns and description, and [load_from_file]
    on the exported list leaves the same signatures in the same order.
    The protocols of the signatures are in lower case, as the constructor
    leaves them. *)
Theorem import_export_roundtrip lower self other :
  Forall (normalized lower) (signatures self) ->
  Forall2 (fun sig_data sig =>
             from_dict lower sig_data = Ok sig
             /\ d_name sig_data = Some (name sig)
             /\ d_port sig_data = Some (port sig)
             /\ d_protocol sig_data = Some (protocol sig)
             /\ d_patterns sig_data = Some (patterns sig)
             /\ d_description sig_data = Some (description sig))
          (save_to_file self) (signatures self)
  /\ load_from_file lower (save_to_file self) other = (Ok tt, self).
Proof.
  intros Hnorm. destruct self as [sigs]. unfold save_to_file. simpl in *.
  assert (Hall : Forall2 (fun sig_data sig => from_dict lower sig_data = Ok sig)
                         (List.map to_dict sigs) sigs).
  { induction Hnorm as [|sig sigs Hsig _ IH]; simpl; constructor.
    - now apply from_dict_to_dict.
    - exact IH. }
  split.
  - induction Hnorm as [|sig sigs Hsig Hrest IH]; simpl; constructor.
    + repeat split. now apply from_dict_to_dict.
    + apply IH. now inversion Hall.
  - unfold load_from_file.
    rewrite (load_from_file_loop_Ok lower _ sigs Hall). reflexivity.
Qed.

Lemma from_dict_complete lower data :
  lacks_required data = false -> exists sig, from_dict lower data = Ok sig.
Proof.
  unfold lacks_required, from_dict.
  destruct (d_name data); [|discriminate].
  destruct (d_port data); [|discriminate].
  intros _. eexists. reflexivity.
Qed.

Lemma from_dict_lacking lower data :
  lacks_required data = true ->
  exists key,
    from_dict lower data = Raise (KeyError key)
    /\ (key = "name"%string \/ key = "port"%string).
Proof.
  unfold lacks_required, from_dict.
  destruct (d_name data); [destruct (d_port data); [discriminate|]|]; intros _.
  - exists "port"%string. auto.
  - exists "name"%string. auto.
Qed.

Lemma load_from_file_loop_malformed lower data :
  Exists (fun sig_data => lacks_required sig_data = true) data ->
  forall self,
  exists key imported,
    (key = "name"%string \/ key = "port"%string)
    /\ failed_import lower data key imported
    /\ load_from_file_loop lower data self
       = (Raise (KeyError key), {| signatures := signatures self ++ imported |}).
Proof.
  induction data as [|sig_data data IH]; intros Hex self.
  - inversion Hex.
  - destruct (lacks_required sig_data) eqn:Hlack.
    + destruct (from_dict_lacking lower sig_data Hlack) as [key [Hraise Hkey]].
      exists key, []. split; [exact Hkey|]. split.
      * exists [], sig_data, data. repeat split; auto.
      * simpl. rewrite Hraise, app_nil_r. now destruct self.
    + destruct (from_dict_complete lower sig_data Hlack) as [sig Hsig].
      assert (Hex' : Exists (fun d => lacks_required d = true) data).
      { inversion Hex; subst; [congruence | assumption]. }
      destruct (IH Hex' {| signatures := signatures self ++ [sig] |})
        as [key [imported [Hkey [[before [bad [after [Hdata [Hf [Hbad Hraise]]]]]] Hloop]]]].
      exists key, (sig :: imported). split; [exact Hkey|]. split.
      * exists (sig_data :: before), bad, after.
        split; [simpl; now rewrite Hdata|].
        split; [now constructor|]. split; assumption.
      * simpl. rewrite Hsig, Hloop. simpl. now rewrite <- app_assoc.
Qed.

(** C4, as the code has it.  When some record of the list lacks ['name']
    or ['port'], [load_from_file] raises [KeyError] for that key at the
    first such record and imports none of the records after it.  By then
    the former signatures are gone, and the database holds the signatures
    of the records before that one. *)
Theorem load_from_file_malformed lower data self :
  Exists (fun sig_data => lacks_required sig_data = true) data ->
  exists key imported,
    (key = "name"%string \/ key = "port"%string)
    /\ failed_import lower data key imported
    /\ load_from_file lower data self
       = (Raise (KeyError key), {| signatures := imported |}).
Proof.
  intros Hex. unfold load_from_file.
  destruct (load_from_file_loop_malformed lower data Hex {| signatures := [] |})
    as [key [imported [Hkey [Hfail Hloop]]]].
  exists key, imported. auto.
Qed.

(** * Concrete runs *)

(** The runs of the repository's tests. *)

Example test_detect_by_data_with_port :
  exists result,
    detect_by_data ascii_lower default_detector (b_lit "HTTP/1.1 200 OK")
      (Some 80) (u_lit "tcp") = Ok result
    /\ option_map name (get_best_match result) = Some (u_lit "HTTP")
    /\ confidence result = 1.0%Q.
Proof. eexists. repeat split; vm_compute; reflexivity. Qed.

Example test_detect_by_data_fallback_to_port :
  exists result,
    detect_by_data ascii_lower default_detector (b_lit "UNKNOWN PROTOCOL DATA")
      (Some 80) (u_lit "tcp") = Ok result
    /\ option_map name (get_best_match result) = Some (u_lit "HTTP")
    /\ confidence result = 0.5%Q.
Proof. eexists. repeat split; vm_compute; reflexivity. Qed.

Example test_matches_port_case_insensitive :
  matches_port ascii_lower
    (Signature_init ascii_lower (u_lit "HTTP") 80 (u_lit "tcp") None []) 80
    (u_lit "TCP") = true.
Proof. reflexivity. Qed.

Example test_detect_multiple :
  exists results,
    detect_multiple ascii_lower default_detector
      [ {| s_port := Some 80; s_protocol := Some (u_lit "tcp"); s_data := None |};
        {| s_port := Some 0; s_protocol := None; s_data := None |};
        {| s_port := None; s_protocol := None; s_data := Some (b_lit "GET ") |};
        {| s_port := Some 22; s_protocol := Some (u_lit "tcp");
           s_data := Some (b_lit "SSH-2.0") |} ]
    = Ok results
    /\ List.map (fun result => option_map name (get_best_match result)) results
       = [Some (u_lit "HTTP"); Some (u_lit "SSH")].
Proof. eexists. split; vm_compute; reflexivity. Qed.

Lemma ascii_lower_idempotent s : ascii_lower (ascii_lower s) = ascii_lower s.
Proof.
  unfold ascii_lower. rewrite map_map. apply map_ext. intros c.
  unfold ascii_lower_char.
  destruct ((65 <=? c) && (c <=? 90)) eqn:E; [|now rewrite E].
  apply andb_true_iff in E. destruct E as [H1 H2].
  apply Z.leb_le in H1, H2.
  assert ((65 <=? c + 32) && (c + 32 <=? 90) = false) as ->; [|reflexivity].
  apply andb_false_iff. right. apply Z.leb_gt. lia.
Qed.

(** C1, the claim against the code: on [broken_banner] the lookup returns
    the HTTP signature, yet no pattern of it is a substring of the text
    decoded with replacement, where U+FFFD stands between [HT] and
    [TP/1.1]. *)
Lemma find_by_pattern_replace_counterexample :
  ~ (forall self data,
       exists text keep,
         decode Replace data = Ok text
         /\ find_by_pattern self data = Ok (filter keep (signatures self))
         /\ forall sig,
              keep sig = true <->
              patterns sig <> []
              /\ exists pattern,
                   In pattern (patterns sig) /\ substring pattern text).
Proof.
  intros claim.
  destruct (claim (SignatureDatabase_init ascii_lower) broken_banner)
    as [text [keep [Hd [Hf Hkeep]]]].
  vm_compute in Hd. injection Hd as <-.
  set (http := Signature_init ascii_lower (u_lit "HTTP") 80 (u_lit "tcp")
                 (Some [u_lit "HTTP/1.1"; u_lit "HTTP/1.0"; u_lit "GET ";
                        u_lit "POST "])
                 (u_lit "Hypertext Transfer Protocol")).
  assert (Hrun : find_by_pattern (SignatureDatabase_init ascii_lower) broken_banner
                 = Ok [http]) by (vm_compute; reflexivity).
  rewrite Hrun in Hf. apply Ok_inj in Hf.
  assert (Hin : In http (filter keep (signatures (SignatureDatabase_init ascii_lower)))).
  { rewrite <- Hf. now left. }
  apply filter_In in Hin. destruct Hin as [_ Hk].
  apply Hkeep in Hk. destruct Hk as [_ [pattern [Hp Hsub]]].
  apply contains_spec in Hsub.
  simpl in Hp.
  destruct Hp as [<- | [<- | [<- | [<- | []]]]]; vm_compute in Hsub; discriminate.
Qed.

(** C2, the claim against the code: the port 0 is supplied, the signature
    found by its pattern has the port 0 and the protocol supplied, and it
    is added with confidence 0.95, not 1.0. *)
Lemma pattern_match_port_zero_counterexample :
  find_by_pattern (database zero_port_detector) (b_lit "PING")
  = Ok [zero_port_signature]
  /\ port zero_port_signature = 0
  /\ ascii_lower (protocol zero_port_signature) = ascii_lower (u_lit "tcp")
  /\ detect_by_data ascii_lower zero_port_detector (b_lit "PING") (Some 0)
       (u_lit "tcp")
     = Ok (add_matches [(zero_port_signature, 0.95%Q)]
             (DetectionResult_init 0 (u_lit "tcp")))
  /\ add_matches [(zero_port_signature, 0.95%Q)] (DetectionResult_init 0 (u_lit "tcp"))
     <> add_matches [(zero_port_signature, 1.0%Q)] (DetectionResult_init 0 (u_lit "tcp")).
Proof.
  repeat split; try (vm_compute; reflexivity).
  vm_compute. discriminate.
Qed.

(** C3, the claim against the code: the port 0 is supplied, no pattern
    matches and [find_by_port] has a signature for the port, yet no
    fallback match is added. *)
Lemma port_fallback_port_zero_counterexample :
  find_by_pattern (database zero_port_detector) (b_lit "UNKNOWN") = Ok []
  /\ find_by_port ascii_lower (database zero_port_detector) 0 (u_lit "tcp")
     = [zero_port_signature]
  /\ detect_by_data ascii_lower zero_port_detector (b_lit "UNKNOWN") (Some 0)
       (u_lit "tcp")
     = Ok (DetectionResult_init 0 (u_lit "tcp"))
  /\ DetectionResult_init 0 (u_lit "tcp")
     <> add_matches [(zero_port_signature, 0.5%Q)]
          (DetectionResult_init 0 (u_lit "tcp")).
Proof.
  repeat split; try (vm_compute; reflexivity).
  vm_compute. discriminate.
Qed.

(** C4, the claim against the code: the import of [malformed_records]
    fails at the second record, and the database, which held the default
    signatures, is left with the signature of the first record alone. *)
Lemma load_from_file_partial_counterexample :
  load_from_file ascii_lower malformed_records (SignatureDatabase_init ascii_lower)
  = (Raise (KeyError "port"),
     {| signatures :=
          [Signature_init ascii_lower (u_lit "Telnet") 23 (u_lit "tcp") (Some []) []]
     |})
  /\ snd (load_from_file ascii_lower malformed_records
            (SignatureDatabase_init ascii_lower))
     <> SignatureDatabase_init ascii_lower.
Proof.
  split.
  - vm_compute. reflexivity.
  - vm_compute. discriminate.
Qed.

(** C8, the claim against the code: empty data is supplied, and [detect]
    returns the result of [detect_by_port], with confidence 0.7, where
    [detect_by_data] on the same arguments falls back to the port with
    confidence 0.5. *)
Lemma detect_empty_data_counterexample :
  detect ascii_lower default_detector 80 (u_lit "tcp") (Some [])
  = Ok (detect_by_port ascii_lower default_detector 80 (u_lit "tcp"))
  /\ confidence (detect_by_port ascii_lower default_detector 80 (u_lit "tcp"))
     = 0.7%Q
  /\ (exists result,
        detect_by_data ascii_lower default_detector [] (Some 80) (u_lit "tcp")
        = Ok result
        /\ confidence result = 0.5%Q)
  /\ detect ascii_lower default_detector 80 (u_lit "tcp") (Some [])
     <> detect_by_data ascii_lower default_detector [] (Some 80) (u_lit "tcp").
Proof.
  split; [reflexivity|]. split; [reflexivity|]. split.
  - eexists. split; vm_compute; reflexivity.
  - vm_compute. discriminate.
Qed.

(** C4 on [malformed_records]: the import raises [KeyError] and leaves the
    signatures of a prefix of the list. *)
Lemma load_from_file_malformed_witness :
  Exists (fun sig_data => lacks_required sig_data = true) malformed_records
  /\ exists key imported,
       (key = "name"%string \/ key = "port"%string)
       /\ failed_import ascii_lower malformed_records key imported
       /\ load_from_file ascii_lower malformed_records
            (SignatureDatabase_init ascii_lower)
          = (Raise (KeyError key), {| signatures := imported |}).
Proof.
  assert (H : Exists (fun sig_data => lacks_required sig_data = true)
                     malformed_records).
  { apply Exists_cons_tl. apply Exists_cons_hd. reflexivity. }
  split; [exact H|].
  apply (load_from_file_malformed ascii_lower malformed_records
           (SignatureDatabase_init ascii_lower) H).
Defined.


Lemma default_signatures_normalized :
  Forall (normalized ascii_lower) (signatures (SignatureDatabase_init ascii_lower)).
Proof.
  repeat constructor; apply Signature_init_normalized, ascii_lower_idempotent.
Qed.

(** C7 on the default database: importing its export into any database
    gives the default database. *)
Lemma import_export_roundtrip_witness :
  Forall (normalized ascii_lower) (signatures (SignatureDatabase_init ascii_lower))
  /\ load_from_file ascii_lower
       (save_to_file (SignatureDatabase_init ascii_lower))
       (database zero_port_detector)
     = (Ok tt, SignatureDatabase_init ascii_lower).
Proof.
  assert (H : Forall (normalized ascii_lower)
                (signatures (SignatureDatabase_init ascii_lower))).
  { repeat constructor. }
  split; [exact H|].
  apply (import_export_roundtrip ascii_lower (SignatureDatabase_init ascii_lower)
           (database zero_port_detector) H).
Defined.

(** C10 on [any_signature] and [broken_banner]. *)
Lemma empty_pattern_matches_everything_witness :
  In [] (patterns any_signature)
  /\ In any_signature (signatures (database any_detector))
  /\ matches_pattern any_signature broken_banner = Ok true
  /\ exists result,
       detect_by_data ascii_lower any_detector broken_banner (Some 80) (u_lit "tcp")
       = Ok result
       /\ In any_signature (matches result)
       /\ (confidence result = 0.95%Q \/ confidence result = 1.0%Q).
Proof.
  assert (H1 : In [] (patterns any_signature)) by (simpl; auto).
  assert (H2 : In any_signature (signatures (database any_detector))).
  { simpl. do 10 right. left. reflexivity. }
  split; [exact H1|]. split; [exact H2|].
  destruct (empty_pattern_matches_everything ascii_lower any_detector
              any_signature broken_banner (Some 80) (u_lit "tcp") H1 H2)
    as [Hm [_ Hd]].
  split; [exact Hm | exact Hd].
Defined.

(** * The rest of the database *)

Lemma str_eqb_neq s t : str_eqb s t = false <-> s <> t.
Proof.
  rewrite <- str_eqb_eq. destruct (str_eqb s t); split; congruence.
Qed.

Lemma del_at_middle {A : Type} (before : list A) (x : A) (after : list A) :
  del_at (List.length before) (before ++ x :: after) = before ++ after.
Proof.
  unfold del_at. induction before as [|a before IH].
  - reflexivity.
  - change (a :: firstn (List.length before) (before ++ x :: after)
              ++ skipn (S (List.length before)) (before ++ x :: after)
            = a :: before ++ after).
    now rewrite IH.
Qed.

(** What the loop of [remove_signature] finds. *)
Lemma remove_signature_loop_spec sigs n :
  forall i,
    match remove_signature_loop sigs n i with
    | Some j =>
      exists before sig after,
        sigs = before ++ sig :: after /\ name sig = n /\ absent n before
        /\ j = (i + List.length before)%nat
    | None => absent n sigs
    end.
Proof.
  induction sigs as [|sig sigs IH]; intros i; simpl.
  - constructor.
  - destruct (str_eqb (name sig) n) eqn:E.
    + apply str_eqb_eq in E. exists [], sig, sigs.
      repeat split; [exact E | constructor | simpl; lia].
    + apply str_eqb_neq in E. specialize (IH (S i)).
      destruct (remove_signature_loop sigs n (S i)) as [j|].
      * destruct IH as [before [sig' [after [-> [Hn [Habs ->]]]]]].
        exists (sig :: before), sig', after.
        repeat split; [exact Hn | now constructor | simpl; lia].
      * now constructor.
Qed.

Lemma find_by_name_spec sigs n :
  match find (fun sig => str_eqb (name sig) n) sigs with
  | Some sig =>
    exists before after,
      sigs = before ++ sig :: after /\ name sig = n /\ absent n before
  | None => absent n sigs
  end.
Proof.
  induction sigs as [|sig sigs IH]; simpl.
  - constructor.
  - destruct (str_eqb (name sig) n) eqn:E.
    + apply str_eqb_eq in E. exists [], sigs. repeat split; [exact E | constructor].
    + apply str_eqb_neq in E.
      destruct (find (fun sig0 => str_eqb (name sig0) n) sigs) as [found|].
      * destruct IH as [before [after [-> [Hn Habs]]]].
        exists (sig :: before), after. repeat split; [exact Hn | now constructor].
      * now constructor.
Qed.

Lemma find_absent sigs n :
  absent n sigs -> find (fun sig => str_eqb (name sig) n) sigs = None.
Proof.
  induction 1 as [|sig sigs Hsig _ IH]; simpl; [reflexivity|].
  apply str_eqb_neq in Hsig. now rewrite Hsig.
Qed.

Lemma find_first sigs sig after n :
  absent n sigs -> name sig = n ->
  find (fun s => str_eqb (name s) n) (sigs ++ sig :: after) = Some sig.
Proof.
  intros Habs Hn. induction Habs as [|s sigs Hs _ IH]; simpl.
  - apply str_eqb_eq in Hn. now rewrite Hn.
  - apply str_eqb_neq in Hs. now rewrite Hs.
Qed.

Lemma remove_signature_loop_shift sigs n i :
  remove_signature_loop sigs n (S i)
  = option_map S (remove_signature_loop sigs n i).
Proof.
  revert i. induction sigs as [|sig sigs IH]; intros i; simpl.
  - reflexivity.
  - destruct (str_eqb (name sig) n); [reflexivity | apply IH].
Qed.

Lemma remove_signature_loop_first sigs sig after n :
  absent n sigs -> name sig = n ->
  remove_signature_loop (sigs ++ sig :: after) n 0 = Some (List.length sigs).
Proof.
  intros Habs Hn. induction Habs as [|s sigs Hs _ IH]; simpl.
  - apply str_eqb_eq in Hn. now rewrite Hn.
  - apply str_eqb_neq in Hs. rewrite Hs, remove_signature_loop_shift, IH.
    reflexivity.
Qed.

Lemma remove_signature_loop_absent sigs n i :
  absent n sigs -> remove_signature_loop sigs n i = None.
Proof.
  intros Habs. revert i. induction Habs as [|s sigs Hs _ IH]; intros i; simpl.
  - reflexivity.
  - apply str_eqb_neq in Hs. rewrite Hs. apply IH.
Qed.

(** The two ways a [remove_signature] call ends. *)
Lemma remove_signature_cases self n :
  (exists before sig after,
     signatures self = before ++ sig :: after
     /\ name sig = n /\ absent n before
     /\ remove_signature self n = (true, {| signatures := before ++ after |}))
  \/ (absent n (signatures self) /\ remove_signature self n = (false, self)).
Proof.
  unfold remove_signature.
  pose proof (remove_signature_loop_spec (signatures self) n 0%nat) as H.
  destruct (remove_signature_loop (signatures self) n 0) as [j|].
  - left. destruct H as [before [sig [after [Hs [Hn [Habs ->]]]]]].
    exists before, sig, after. repeat split; try assumption.
    rewrite Hs. simpl. now rewrite del_at_middle.
  - right. auto.
Qed.

Lemma find_app {A : Type} (f : A -> bool) (l l' : list A) :
  find f (l ++ l') =
  match find f l with
  | Some x => Some x
  | None => find f l'
  end.
Proof.
  induction l as [|a l IH]; simpl; [reflexivity|].
  destruct (f a); [reflexivity | exact IH].
Qed.

Lemma count_name_app n sigs sigs' :
  count_name n (sigs ++ sigs') = (count_name n sigs + count_name n sigs')%nat.
Proof. unfold count_name. now rewrite filter_app, length_app. Qed.

Lemma count_name_absent n sigs : absent n sigs -> count_name n sigs = 0%nat.
Proof.
  unfold count_name. induction 1 as [|sig sigs Hsig _ IH]; simpl; [reflexivity|].
  apply str_eqb_neq in Hsig. now rewrite Hsig.
Qed.

Lemma count_name_cons n sig sigs :
  count_name n (sig :: sigs)
  = ((if str_eqb (name sig) n then 1 else 0) + count_name n sigs)%nat.
Proof. unfold count_name. simpl. now destruct (str_eqb (name sig) n). Qed.

(** X1. [find_by_name] returns the first signature whose name is exactly
    the one asked for, and [None] exactly when no signature has it. *)
Theorem find_by_name_first self n :
  (forall sig,
     find_by_name self n = Some sig <->
     exists before after,
       signatures self = before ++ sig :: after
       /\ name sig = n /\ absent n before)
  /\ (find_by_name self n = None <-> absent n (signatures self)).
Proof.
  unfold find_by_name.
  pose proof (find_by_name_spec (signatures self) n) as H.
  split.
  - intros sig. split.
    + intros Hf. rewrite Hf in H. exact H.
    + intros [before [after [-> [Hn Habs]]]]. now apply find_first.
  - split.
    + intros Hf. now rewrite Hf in H.
    + apply find_absent.
Qed.

(** X2. [remove_signature] deletes the first signature with the name and
    returns [True], leaving the others in their order; when no signature
    has the name it returns [False] and leaves the database as it was. *)
Theorem remove_signature_first self n :
  (forall db,
     remove_signature self n = (true, db) <->
     exists before sig after,
       signatures self = before ++ sig :: after
       /\ name sig = n /\ absent n before
       /\ db = {| signatures := before ++ after |})
  /\ (forall db,
        remove_signature self n = (false, db) <->
        absent n (signatures self) /\ db = self).
Proof.
  split; intros db; split.
  - intros Hr.
    destruct (remove_signature_cases self n)
      as [[before [sig [after [Hs [Hn [Habs Hrm]]]]]] | [_ Hrm]];
      rewrite Hrm in Hr; [|discriminate].
    injection Hr as <-. exists before, sig, after. auto.
  - intros [before [sig [after [Hs [Hn [Habs ->]]]]]].
    unfold remove_signature.
    rewrite Hs, (remove_signature_loop_first before sig after n Habs Hn).
    now rewrite del_at_middle.
  - intros Hr.
    destruct (remove_signature_cases self n)
      as [[before [sig [after [Hs [Hn [Habs Hrm]]]]]] | [Habs Hrm]];
      rewrite Hrm in Hr; [discriminate|].
    injection Hr as <-. auto.
  - intros [Habs ->]. unfold remove_signature.
    now rewrite (remove_signature_loop_absent _ n 0%nat Habs).
Qed.

(** X3. [remove_signature] returns [True] exactly when [find_by_name]
    finds the name, and it changes the lookup of no other name. *)
Theorem remove_signature_other_names self n :
  (fst (remove_signature self n) = true <-> find_by_name self n <> None)
  /\ forall m, m <> n ->
       find_by_name (snd (remove_signature self n)) m = find_by_name self m.
Proof.
  destruct (remove_signature_cases self n)
    as [[before [sig [after [Hs [Hn [Habs Hrm]]]]]] | [Habs Hrm]];
    rewrite Hrm; simpl; unfold find_by_name.
  - split.
    + rewrite Hs, (find_first before sig after n Habs Hn).
      split; [discriminate | reflexivity].
    + intros m Hm. simpl. rewrite Hs, !find_app. simpl.
      assert (str_eqb (name sig) m = false) as ->; [|reflexivity].
      apply str_eqb_neq. congruence.
  - split.
    + rewrite (find_absent _ n Habs). split; [discriminate | congruence].
    + reflexivity.
Qed.

(** X4. A call of [remove_signature] that returns [True] takes one
    signature of that name out, so the length and the number of
    signatures of the name go down by one; it returns [True] exactly when
    that number is not zero.  Signatures of other names are all kept. *)
Theorem remove_signature_counts self n :
  let removed := if fst (remove_signature self n) then 1%nat else 0%nat in
  (fst (remove_signature self n) = true <->
   (0 < count_name n (signatures self))%nat)
  /\ (count_name n (signatures (snd (remove_signature self n))) + removed
      = count_name n (signatures self))%nat
  /\ len (snd (remove_signature self n)) + Z.of_nat removed = len self
  /\ forall m, m <> n ->
       count_name m (signatures (snd (remove_signature self n)))
       = count_name m (signatures self).
Proof.
  cbv zeta.
  destruct (remove_signature_cases self n)
    as [[before [sig [after [Hs [Hn [Habs Hrm]]]]]] | [Habs Hrm]];
    rewrite Hrm; cbn [fst snd signatures].
  - apply str_eqb_eq in Hn. unfold len. cbn [signatures].
    rewrite Hs, !count_name_app, count_name_cons, Hn, !length_app.
    cbn [List.length].
    rewrite (count_name_absent n before Habs).
    split; [|split; [|split]].
    + split; [lia | reflexivity].
    + lia.
    + lia.
    + intros m Hm. rewrite !count_name_app, count_name_cons.
      assert (str_eqb (name sig) m = false) as ->; [|reflexivity].
      apply str_eqb_neq. apply str_eqb_eq in Hn. congruence.
  - rewrite (count_name_absent n _ Habs).
    split; [|split; [|split]].
    + split; [discriminate | lia].
    + reflexivity.
    + lia.
    + reflexivity.
Qed.

(** X5. After [add_signature] a name is looked up as before when the
    database already had it; otherwise the lookup gives the added
    signature when its name is the one asked for, and [None] when not. *)
Theorem find_by_name_add_signature self sig n :
  find_by_name (add_signature self sig) n =
  match find_by_name self n with
  | Some found => Some found
  | None => if str_eqb (name sig) n then Some sig else None
  end.
Proof.
  unfold find_by_name, add_signature. simpl. rewrite find_app. reflexivity.
Qed.

(** X6. Removing the name of a signature just added, when no other
    signature of the database has the name, gives the database back. *)
Theorem remove_signature_add_signature self sig :
  absent (name sig) (signatures self) ->
  remove_signature (add_signature self sig) (name sig) = (true, self)
  /\ find_by_name (add_signature self sig) (name sig) = Some sig.
Proof.
  intros Habs. split.
  - unfold remove_signature, add_signature. simpl.
    rewrite (remove_signature_loop_first _ sig [] _ Habs eq_refl).
    rewrite del_at_middle, app_nil_r. now destruct self.
  - unfold find_by_name, add_signature. simpl. now apply find_first.
Qed.

(** X7. [find_by_port] keeps, in the order of the database, exactly the
    signatures whose port is the one asked for and whose protocol is the
    one asked for up to case; the case of the protocol asked for does not
    matter, and a signature added to the database comes last. *)
Theorem find_by_port_selects lower self p supplied_protocol :
  (exists keep,
     find_by_port lower self p supplied_protocol = filter keep (signatures self)
     /\ forall sig,
          keep sig = true <->
          port sig = p /\ lower (protocol sig) = lower supplied_protocol)
  /\ (forall other_protocol,
        lower other_protocol = lower supplied_protocol ->
        find_by_port lower self p other_protocol
        = find_by_port lower self p supplied_protocol)
  /\ (forall sig,
        find_by_port lower (add_signature self sig) p supplied_protocol
        = find_by_port lower self p supplied_protocol
          ++ (if matches_port lower sig p supplied_protocol then [sig] else [])).
Proof.
  split; [|split].
  - exists (fun sig => matches_port lower sig p supplied_protocol).
    split; [reflexivity|]. intros sig. apply matches_port_spec.
  - intros other_protocol Heq. unfold find_by_port, matches_port.
    now rewrite Heq.
  - intros sig. unfold find_by_port, add_signature. simpl.
    now rewrite filter_app.
Qed.

(** X8. A signature built by the constructor matches a port and protocol
    exactly when the port is its own and the protocol is, up to case, the
    one it was built with; [str.lower] is idempotent. *)
Theorem matches_port_constructed lower n p proto pats descr p' proto' :
  (forall s, lower (lower s) = lower s) ->
  matches_port lower (Signature_init lower n p proto pats descr) p' proto' = true
  <-> p = p' /\ lower proto = lower proto'.
Proof.
  intros Hidem. rewrite matches_port_spec. simpl. now rewrite Hidem.
Qed.

(** X9. [from_dict] raises [KeyError] for ['name'] when the name is
    missing, whether or not the port is, and for ['port'] when only the
    port is missing.  With both present it returns the signature of that
    name and port, with the protocol in lower case, ["tcp"] when absent,
    and with no patterns and an empty description when these are absent. *)
Theorem from_dict_outcome lower data :
  (d_name data = None -> from_dict lower data = Raise (KeyError "name"))
  /\ (d_name data <> None -> d_port data = None ->
      from_dict lower data = Raise (KeyError "port"))
  /\ (forall n p,
        d_name data = Some n -> d_port data = Some p ->
        from_dict lower data
        = Ok {| name := n;
                port := p;
                protocol := lower (get (d_protocol data) (u_lit "tcp"));
                patterns := get (d_patterns data) [];
                description := get (d_description data) [] |}).
Proof.
  unfold from_dict. split; [|split].
  - intros ->. reflexivity.
  - intros Hn ->. destruct (d_name data); [reflexivity | congruence].
  - intros n p -> ->. simpl. unfold Signature_init.
    destruct (get (d_patterns data) []); reflexivity.
Qed.

Lemma load_from_file_loop_inv lower data :
  forall self db,
    load_from_file_loop lower data self = (Ok tt, db) ->
    exists imported,
      Forall2 (fun sig_data sig => from_dict lower sig_data = Ok sig) data imported
      /\ db = {| signatures := signatures self ++ imported |}.
Proof.
  induction data as [|sig_data data IH]; intros self db; simpl.
  - intros H. injection H as <-. exists []. split; [constructor|].
    rewrite app_nil_r. now destruct self.
  - destruct (from_dict lower sig_data) as [sig|e] eqn:Hd; [|discriminate].
    intros H. apply IH in H. destruct H as [imported [Hall ->]].
    exists (sig :: imported). split; [now constructor|].
    simpl. now rewrite <- app_assoc.
Qed.

Lemma from_dict_Ok_complete lower data sig :
  from_dict lower data = Ok sig -> lacks_required data = false.
Proof.
  unfold from_dict, lacks_required.
  destruct (d_name data); [|discriminate].
  destruct (d_port data); [reflexivity | discriminate].
Qed.

(** X10. [load_from_file] succeeds exactly when every record has a name
    and a port.  The database then holds one signature for each record, in
    the order of the list and whatever it held before, each with the name
    and port of its record, the protocol in lower case, and the defaults
    for what the record leaves out. *)
Theorem load_from_file_complete lower data self :
  (Forall (fun sig_data => lacks_required sig_data = false) data <->
   exists db, load_from_file lower data self = (Ok tt, db))
  /\ forall db,
       load_from_file lower data self = (Ok tt, db) ->
       Forall2
         (fun sig_data sig =>
            d_name sig_data = Some (name sig)
            /\ d_port sig_data = Some (port sig)
            /\ protocol sig = lower (get (d_protocol sig_data) (u_lit "tcp"))
            /\ patterns sig = get (d_patterns sig_data) []
            /\ description sig = get (d_description sig_data) [])
         data (signatures db).
Proof.
  unfold load_from_file. split; [split|].
  - intros Hall.
    assert (exists imported,
              Forall2 (fun sig_data sig => from_dict lower sig_data = Ok sig)
                      data imported) as [imported Himp].
    { induction Hall as [|sig_data data Hd _ [imported IH]].
      - exists []. constructor.
      - destruct (from_dict_complete lower sig_data Hd) as [sig Hsig].
        exists (sig :: imported). now constructor. }
    eexists. apply (load_from_file_loop_Ok lower data imported Himp).
  - intros [db Hload]. apply load_from_file_loop_inv in Hload.
    destruct Hload as [imported [Himp _]].
    induction Himp as [|sig_data sig data imported Hd _ IH]; constructor.
    + now apply from_dict_Ok_complete in Hd.
    + exact IH.
  - intros db Hload. apply load_from_file_loop_inv in Hload.
    destruct Hload as [imported [Himp ->]]. simpl.
    induction Himp as [|sig_data sig data imported Hd _ IH]; constructor.
    + unfold from_dict in Hd.
      destruct (d_name sig_data); [|discriminate].
      destruct (d_port sig_data); [|discriminate].
      simpl in Hd. injection Hd as <-. simpl.
      repeat split. now destruct (get (d_patterns sig_data) []).
    + exact IH.
Qed.

(** X11. What an import left in the database exports and imports again
    unchanged, [str.lower] being idempotent. *)
Theorem load_from_file_stable lower data self other db :
  (forall s, lower (lower s) = lower s) ->
  load_from_file lower data self = (Ok tt, db) ->
  load_from_file lower (save_to_file db) other = (Ok tt, db).
Proof.
  intros Hidem Hload. unfold load_from_file in *.
  apply load_from_file_loop_inv in Hload.
  destruct Hload as [imported [Himp ->]]. simpl.
  rewrite (load_from_file_loop_Ok lower _ imported); [reflexivity|].
  unfold save_to_file. simpl. clear self other.
  induction Himp as [|sig_data sig data imported Hd _ IH]; simpl; constructor.
  - apply from_dict_to_dict. now apply (from_dict_normalized lower sig_data).
  - exact IH.
Qed.

(** * Matching and detection, further *)

Lemma decode_ascii h data :
  Forall (fun b => byte_val b < 0x80) data ->
  decode h data = Ok (List.map byte_val data).
Proof.
  induction 1 as [|b0 data Hb _ IH]; [reflexivity|].
  cbn [decode List.map]. apply Z.ltb_lt in Hb. rewrite Hb, IH. reflexivity.
Qed.

(** X12. On a sample of ASCII bytes [matches_pattern] is the search of
    the patterns in the bytes themselves: it is true exactly when some
    pattern of the signature is a substring of the sample. *)
Theorem matches_pattern_ascii sig data :
  Forall (fun b => byte_val b < 0x80) data ->
  matches_pattern sig data
  = Ok (existsb (contains (List.map byte_val data)) (patterns sig))
  /\ (matches_pattern sig data = Ok true <->
      exists pattern,
        In pattern (patterns sig) /\ substring pattern (List.map byte_val data)).
Proof.
  intros Hascii.
  pose proof (matches_pattern_decoded sig data _ (decode_ascii Ignore data Hascii))
    as Hm.
  split; [exact Hm|]. rewrite Hm. split.
  - intros H. apply Ok_inj, existsb_exists in H.
    destruct H as [pattern [Hin Hc]]. exists pattern.
    split; [exact Hin | now apply contains_spec].
  - intros [pattern [Hin Hsub]]. f_equal. apply existsb_exists.
    exists pattern. split; [exact Hin | now apply contains_spec].
Qed.

Lemma max_same c : max c c = c.
Proof. unfold max. now destruct (Qgtb c c). Qed.

(** The confidence after calls that all supply [c], above the confidence
    before. *)
Lemma confidence_constant_calls c sigs self :
  (confidence self < c)%Q -> sigs <> [] ->
  confidence (add_matches (List.map (fun sig => (sig, c)) sigs) self) = c.
Proof.
  intros Hlt Hne. destruct sigs as [|sig sigs]; [congruence|]. clear Hne.
  simpl List.map. rewrite add_matches_cons.
  assert (Hfirst : confidence (add_match self sig c) = c).
  { simpl. unfold max. apply Qgtb_true in Hlt. now rewrite Hlt. }
  revert Hfirst. generalize (add_match self sig c). clear.
  induction sigs as [|sig sigs IH]; intros r Hr; [exact Hr|].
  simpl List.map. rewrite add_matches_cons. apply IH. simpl.
  rewrite Hr. apply max_same.
Qed.

(** X13. The result of [detect_by_port] carries the port and protocol
    asked for and the signatures of [find_by_port], the first of them as
    best match; its confidence is 0.7 when there is a match and 0.0 when
    there is none.  The case of the protocol asked for changes neither the
    matches nor the confidence. *)
Theorem detect_by_port_result lower self p supplied_protocol :
  let result := detect_by_port lower self p supplied_protocol in
  let found := find_by_port lower (database self) p supplied_protocol in
  r_port result = p
  /\ r_protocol result = supplied_protocol
  /\ matches result = found
  /\ get_best_match result = hd_error found
  /\ (found <> [] -> confidence result = 0.7%Q)
  /\ (found = [] -> confidence result = 0.0%Q)
  /\ forall other_protocol,
       lower other_protocol = lower supplied_protocol ->
       matches (detect_by_port lower self p other_protocol) = matches result
       /\ confidence (detect_by_port lower self p other_protocol)
          = confidence result.
Proof.
  cbv zeta. rewrite detect_by_port_calls.
  set (found := find_by_port lower (database self) p supplied_protocol).
  assert (Hm : forall proto,
             matches (add_matches
                        (List.map (fun sig => (sig, 0.7%Q))
                           (find_by_port lower (database self) p proto))
                        (DetectionResult_init p proto))
             = find_by_port lower (database self) p proto).
  { intros proto. rewrite matches_add_matches, map_map. simpl. apply map_id. }
  destruct (r_port_add_matches
              (List.map (fun sig => (sig, 0.7%Q)) found)
              (DetectionResult_init p supplied_protocol)) as [Hp Hproto].
  split; [exact Hp|]. split; [exact Hproto|]. split; [apply Hm|].
  split; [|split; [|split]].
  - unfold get_best_match, found. rewrite Hm.
    now destruct (find_by_port lower (database self) p supplied_protocol).
  - intros Hne. now apply confidence_constant_calls.
  - intros ->. reflexivity.
  - intros other_protocol Heq. rewrite detect_by_port_calls.
    assert (Hsame : find_by_port lower (database self) p other_protocol = found).
    { unfold found, find_by_port, matches_port. now rewrite Heq. }
    rewrite !matches_add_matches, Hsame. split; [reflexivity|].
    fold found. destruct found as [|sig found'] eqn:E; [reflexivity|].
    rewrite !confidence_constant_calls; (reflexivity || discriminate).
Qed.

(** X14. A sequence of [add_match] calls keeps the port and the protocol
    of a result, appends the signatures of the calls to [matches] in their
    order, and never lowers [confidence]; a best match, once there is one,
    stays as it is. *)
Theorem add_matches_grows calls self :
  r_port (add_matches calls self) = r_port self
  /\ r_protocol (add_matches calls self) = r_protocol self
  /\ matches (add_matches calls self) = matches self ++ List.map fst calls
  /\ (confidence self <= confidence (add_matches calls self))%Q
  /\ (matches self <> [] ->
      get_best_match (add_matches calls self) = get_best_match self).
Proof.
  destruct (r_port_add_matches calls self) as [Hp Hproto].
  destruct (confidence_add_matches calls self) as [_ [Hle _]].
  repeat split; try assumption.
  - apply matches_add_matches.
  - intros Hne. unfold get_best_match. rewrite matches_add_matches.
    destruct (matches self); [congruence | reflexivity].
Qed.

Lemma fallback_calls_matched lower self supplied_port supplied_protocol
    pattern_matches :
  pattern_matches <> [] ->
  fallback_calls lower self supplied_port supplied_protocol pattern_matches = [].
Proof.
  intros Hne. unfold fallback_calls. destruct pattern_matches; [congruence|].
  now destruct supplied_port.
Qed.

(** The confidence after the calls of the pattern matches alone. *)
Lemma confidence_pattern_calls lower supplied_port supplied_protocol
    pattern_matches port' protocol' :
  pattern_matches <> [] ->
  let result :=
    add_matches
      (List.map (fun sig => (sig, pattern_confidence lower supplied_port
                                    supplied_protocol sig)) pattern_matches)
      (DetectionResult_init port' protocol') in
  ((exists sig, In sig pattern_matches
                /\ pattern_confidence lower supplied_port supplied_protocol sig
                   = 1.0%Q) ->
   confidence result = 1.0%Q)
  /\ ((forall sig, In sig pattern_matches ->
                   pattern_confidence lower supplied_port supplied_protocol sig
                   = 0.95%Q) ->
      confidence result = 0.95%Q).
Proof.
  intros Hne result.
  destruct (confidence_add_matches
              (List.map (fun sig => (sig, pattern_confidence lower supplied_port
                                            supplied_protocol sig)) pattern_matches)
              (DetectionResult_init port' protocol')) as [Hin [_ Hall]].
  fold result in Hin, Hall. rewrite Forall_forall in Hall.
  assert (Hge : forall sig, In sig pattern_matches ->
                  (pattern_confidence lower supplied_port supplied_protocol sig
                   <= confidence result)%Q).
  { intros sig Hsig.
    apply (Hall (sig, pattern_confidence lower supplied_port supplied_protocol sig)).
    apply in_map_iff. exists sig. auto. }
  assert (Hval : confidence result = 0.0%Q
                 \/ exists sig, In sig pattern_matches
                      /\ confidence result
                         = pattern_confidence lower supplied_port
                             supplied_protocol sig).
  { destruct Hin as [Heq | [call [Hcall Heq]]]; [left; exact Heq|].
    right. apply in_map_iff in Hcall. destruct Hcall as [sig [<- Hsig]].
    exists sig. auto. }
  split.
  - intros [sig [Hsig Hone]]. specialize (Hge sig Hsig). rewrite Hone in Hge.
    destruct Hval as [Heq | [sig' [_ Heq]]].
    + rewrite Heq in Hge. exfalso. now apply Hge.
    + destruct (pattern_confidence_cases lower supplied_port supplied_protocol sig')
        as [E | E]; rewrite E in Heq; [|exact Heq].
      rewrite Heq in Hge. exfalso. now apply Hge.
  - intros Hnone. destruct Hval as [Heq | [sig' [Hsig' Heq]]].
    + destruct pattern_matches as [|sig rest]; [congruence|].
      assert (Hle := Hge sig (or_introl eq_refl)).
      rewrite (Hnone sig (or_introl eq_refl)), Heq in Hle.
      exfalso. now apply Hle.
    + rewrite Heq. now apply Hnone.
Qed.

(** X15. The result of [detect_by_data] carries the supplied port, or 0
    for none, and the supplied protocol.  Its matches are the pattern
    matches when there are any, and otherwise the signatures of
    [find_by_port] for a supplied port that is not zero.  Its confidence
    is 1.0 when a pattern match has the supplied non-zero port and the
    protocol, 0.95 when there are pattern matches and none has, 0.5 when
    only the port matched, and 0.0 when nothing matched. *)
Theorem detect_by_data_tiers lower self data supplied_port supplied_protocol :
  exists pattern_matches result,
    find_by_pattern (database self) data = Ok pattern_matches
    /\ detect_by_data lower self data supplied_port supplied_protocol = Ok result
    /\ r_port result = or_0 supplied_port
    /\ r_protocol result = supplied_protocol
    /\ matches result
       = (if truthy_list pattern_matches then pattern_matches
          else match supplied_port with
               | Some p =>
                 if truthy_int p
                 then find_by_port lower (database self) p supplied_protocol
                 else []
               | None => []
               end)
    /\ ((exists sig p,
           In sig pattern_matches /\ supplied_port = Some p /\ p <> 0
           /\ port sig = p /\ lower (protocol sig) = lower supplied_protocol) ->
        confidence result = 1.0%Q)
    /\ (pattern_matches <> [] ->
        (forall sig p,
           In sig pattern_matches -> supplied_port = Some p -> p <> 0 ->
           port sig = p -> lower (protocol sig) <> lower supplied_protocol) ->
        confidence result = 0.95%Q)
    /\ (pattern_matches = [] -> matches result <> [] ->
        confidence result = 0.5%Q)
    /\ (matches result = [] -> confidence result = 0.0%Q).
Proof.
  destruct (find_by_pattern_returns (database self) data) as [pattern_matches Hf].
  exists pattern_matches. eexists.
  split; [exact Hf|]. split; [apply detect_by_data_calls; exact Hf|].
  set (init := DetectionResult_init (or_0 supplied_port) supplied_protocol).
  destruct (r_port_add_matches
              (List.map (fun sig => (sig, pattern_confidence lower supplied_port
                                            supplied_protocol sig))
                        pattern_matches
               ++ fallback_calls lower self supplied_port supplied_protocol
                    pattern_matches) init) as [Hp Hproto].
  split; [exact Hp|]. split; [exact Hproto|]. clear Hp Hproto.
  assert (Hcase : pattern_matches = [] \/ pattern_matches <> [])
    by (destruct pattern_matches; [left | right]; congruence).
  destruct Hcase as [Epm | Hne].
  - (* no pattern match *)
    subst pattern_matches. cbn [List.map app truthy_list].
    assert (Hfb : fallback_calls lower self supplied_port supplied_protocol []
                  = List.map (fun sig => (sig, 0.5%Q))
                      match supplied_port with
                      | Some p =>
                        if truthy_int p
                        then find_by_port lower (database self) p supplied_protocol
                        else []
                      | None => []
                      end).
    { unfold fallback_calls. destruct supplied_port as [p|]; [|reflexivity].
      simpl. now destruct (truthy_int p). }
    rewrite Hfb.
    set (found := match supplied_port with
                  | Some p =>
                    if truthy_int p
                    then find_by_port lower (database self) p supplied_protocol
                    else []
                  | None => []
                  end).
    assert (Hm : matches (add_matches (List.map (fun sig => (sig, 0.5%Q)) found) init)
                 = found).
    { rewrite matches_add_matches, map_map. simpl. apply map_id. }
    split; [exact Hm|]. rewrite Hm.
    split; [intros [sig [p [[] _]]]|]. split; [congruence|]. split.
    + intros _ Hne. now apply confidence_constant_calls.
    + intros ->. reflexivity.
  - (* pattern matches *)
    rewrite (fallback_calls_matched _ _ _ _ _ Hne), app_nil_r.
    set (calls := List.map (fun sig => (sig, pattern_confidence lower supplied_port
                                              supplied_protocol sig))
                           pattern_matches).
    assert (Hm : matches (add_matches calls init) = pattern_matches).
    { rewrite matches_add_matches. unfold calls. rewrite map_map. simpl.
      apply map_id. }
    assert (Htruthy : truthy_list pattern_matches = true)
      by (now apply truthy_list_true).
    rewrite Htruthy. split; [exact Hm|]. rewrite Hm.
    destruct (confidence_pattern_calls lower supplied_port supplied_protocol
                pattern_matches (or_0 supplied_port) supplied_protocol Hne)
      as [Hone Hnone].
    fold calls init in Hone, Hnone.
    split; [|split; [|split]].
    + intros [sig [p [Hsig Hconf]]]. apply Hone. exists sig. split; [exact Hsig|].
      apply pattern_confidence_spec. exists p. exact Hconf.
    + intros _ Hnot. apply Hnone. intros sig Hsig.
      apply pattern_confidence_spec.
      intros [p [Hs [Hp0 [Hport Hproto']]]].
      exact (Hnot sig p Hsig Hs Hp0 Hport Hproto').
    + congruence.
    + congruence.
Qed.

(** X16. A signature without patterns is in the result of
    [detect_by_data] only through the port: the supplied port is then not
    zero and is its own, the protocols agree up to case, no pattern
    matched, and the confidence of the result is 0.5. *)
Theorem patternless_only_by_port lower self data supplied_port supplied_protocol
    result sig :
  detect_by_data lower self data supplied_port supplied_protocol = Ok result ->
  In sig (matches result) ->
  patterns sig = [] ->
  confidence result = 0.5%Q
  /\ find_by_pattern (database self) data = Ok []
  /\ exists p,
       supplied_port = Some p /\ p <> 0 /\ port sig = p
       /\ lower (protocol sig) = lower supplied_protocol.
Proof.
  intros Hd Hin Hpat.
  destruct (decode_Ignore_returns data) as [text Htext].
  pose proof (find_by_pattern_filter (database self) data text Htext) as Hf.
  rewrite (detect_by_data_calls _ _ _ _ _ _ Hf) in Hd. apply Ok_inj in Hd.
  subst result.
  set (pattern_matches := filter (pattern_hit text) (signatures (database self)))
    in *.
  rewrite matches_add_matches in Hin. simpl in Hin.
  rewrite map_app, map_map in Hin. simpl in Hin. rewrite map_id in Hin.
  apply in_app_or in Hin. destruct Hin as [Hin | Hin].
  { exfalso. apply filter_In in Hin. destruct Hin as [_ Hhit].
    unfold pattern_hit in Hhit. rewrite Hpat in Hhit. discriminate. }
  unfold fallback_calls in *.
  destruct supplied_port as [p|]; [|contradiction].
  destruct pattern_matches as [|sig0 rest]; [|contradiction].
  simpl negb in *. cbn [andb] in *.
  destruct (truthy_int p) eqn:Hp; [|contradiction].
  rewrite map_map in Hin. simpl in Hin. rewrite map_id in Hin.
  split; [|split].
  - cbn [List.map app]. apply confidence_constant_calls; [reflexivity|].
    intros E. rewrite E in Hin. contradiction.
  - exact Hf.
  - exists p. apply truthy_int_true in Hp.
    apply filter_In in Hin. destruct Hin as [_ Hm].
    apply matches_port_spec in Hm. tauto.
Qed.

(** X17. For [detect_by_data] the port 0 is no port: supplying 0 gives
    the result of supplying none. *)
Theorem detect_by_data_port_zero lower self data supplied_protocol :
  detect_by_data lower self data (Some 0) supplied_protocol
  = detect_by_data lower self data None supplied_protocol.
Proof.
  destruct (find_by_pattern_returns (database self) data) as [pattern_matches Hf].
  rewrite !(detect_by_data_calls _ _ _ _ _ _ Hf).
  unfold fallback_calls. change (truthy_int 0) with false.
  rewrite andb_false_r. reflexivity.
Qed.

Lemma detect_multiple_loop_acc lower self services :
  forall results,
  exists more,
    detect_multiple_loop lower self services [] = Ok more
    /\ detect_multiple_loop lower self services results = Ok (results ++ more).
Proof.
  induction services as [|service services IH]; intros results.
  - exists []. simpl. now rewrite app_nil_r.
  - cbn [detect_multiple_loop].
    assert (Hskip : exists more,
               detect_multiple_loop lower self services [] = Ok more
               /\ detect_multiple_loop lower self services results
                  = Ok (results ++ more)) by apply IH.
    destruct (s_port service) as [p|]; [|exact Hskip].
    destruct (truthy_int p); [|exact Hskip].
    destruct (detect_returns lower self p (get (s_protocol service) (u_lit "tcp"))
                (s_data service)) as [result Hd].
    rewrite Hd. cbn [bind app].
    destruct (IH (results ++ [result])) as [more [Hmore Hacc]].
    destruct (IH [result]) as [more' [Hmore' Hone]].
    rewrite Hmore in Hmore'. apply Ok_inj in Hmore'. subst more'.
    exists (result :: more). split; [exact Hone|].
    rewrite Hacc, <- app_assoc. reflexivity.
Qed.

(** X18. [detect_multiple] on a list of services in two parts gives the
    results of the first part followed by those of the second. *)
Theorem detect_multiple_app lower self services services' :
  exists results results',
    detect_multiple lower self services = Ok results
    /\ detect_multiple lower self services' = Ok results'
    /\ detect_multiple lower self (services ++ services') = Ok (results ++ results').
Proof.
  unfold detect_multiple.
  destruct (detect_multiple_loop_acc lower self services' []) as [results' [H' _]].
  assert (Happ : forall acc,
             exists results,
               detect_multiple_loop lower self services acc = Ok (acc ++ results)
               /\ detect_multiple_loop lower self (services ++ services') acc
                  = Ok (acc ++ results ++ results')).
  { induction services as [|service services IH]; intros acc.
    - exists []. simpl. rewrite app_nil_r. split; [reflexivity|].
      destruct (detect_multiple_loop_acc lower self services' acc)
        as [more [Hm Hacc]].
      rewrite H' in Hm. apply Ok_inj in Hm. now subst more.
    - cbn [detect_multiple_loop app].
      destruct (s_port service) as [p|]; [|apply IH].
      destruct (truthy_int p); [|apply IH].
      destruct (detect_returns lower self p
                  (get (s_protocol service) (u_lit "tcp")) (s_data service))
        as [result Hd].
      rewrite Hd. cbn [bind].
      destruct (IH (acc ++ [result])) as [results [H1 H2]].
      exists (result :: results). rewrite H1, H2, <- !app_assoc.
      split; reflexivity. }
  destruct (Happ []) as [results [H1 H2]].
  exists results, results'. auto.
Qed.

(** X19. [SignatureDetector] keeps the database it is given when that
    holds a signature.  Given no database, or one that is empty, it
    detects from a new database of the ten default signatures. *)
Theorem SignatureDetector_init_database lower :
  (forall db,
     signatures db <> [] ->
     database (SignatureDetector_init lower (Some db)) = db)
  /\ (forall db,
        signatures db = [] ->
        database (SignatureDetector_init lower (Some db))
        = SignatureDatabase_init lower)
  /\ database (SignatureDetector_init lower None) = SignatureDatabase_init lower
  /\ len (SignatureDatabase_init lower) = 10.
Proof.
  split; [|split; [|split]].
  - intros [sigs] Hne. simpl in Hne. unfold SignatureDetector_init, len. simpl.
    destruct sigs; [congruence | reflexivity].
  - intros [sigs] He. simpl in He. subst sigs. reflexivity.
  - reflexivity.
  - reflexivity.
Qed.

Lemma detect_by_port_fields lower self p supplied_protocol :
  r_port (detect_by_port lower self p supplied_protocol) = p
  /\ r_protocol (detect_by_port lower self p supplied_protocol) = supplied_protocol
  /\ matches (detect_by_port lower self p supplied_protocol)
     = find_by_port lower (database self) p supplied_protocol
  /\ confidence (detect_by_port lower self p supplied_protocol)
     = (if truthy_list (find_by_port lower (database self) p supplied_protocol)
        then 0.7%Q else 0.0%Q).
Proof.
  rewrite detect_by_port_calls.
  destruct (r_port_add_matches
              (List.map (fun sig => (sig, 0.7%Q))
                 (find_by_port lower (database self) p supplied_protocol))
              (DetectionResult_init p supplied_protocol)) as [Hp Hproto].
  split; [exact Hp|]. split; [exact Hproto|]. split.
  - rewrite matches_add_matches, map_map. simpl. apply map_id.
  - destruct (find_by_port lower (database self) p supplied_protocol) eqn:E.
    + reflexivity.
    + apply confidence_constant_calls; [reflexivity | discriminate].
Qed.

Lemma detect_by_data_matches_filter lower self data supplied_port
    supplied_protocol result :
  detect_by_data lower self data supplied_port supplied_protocol = Ok result ->
  exists keep, matches result = filter keep (signatures (database self)).
Proof.
  intros Hd.
  destruct (decode_Ignore_returns data) as [text Htext].
  pose proof (find_by_pattern_filter (database self) data text Htext) as Hf.
  rewrite (detect_by_data_calls _ _ _ _ _ _ Hf) in Hd. apply Ok_inj in Hd.
  subst result. rewrite matches_add_matches, map_app, map_map. simpl.
  rewrite map_id.
  destruct (filter (pattern_hit text) (signatures (database self))) eqn:E.
  - unfold fallback_calls. destruct supplied_port as [p|].
    + simpl. destruct (truthy_int p).
      * exists (fun sig => matches_port lower sig p supplied_protocol).
        rewrite map_map. simpl. now rewrite map_id.
      * exists (pattern_hit text). now rewrite E.
    + exists (pattern_hit text). now rewrite E.
  - rewrite fallback_calls_matched by discriminate.
    exists (pattern_hit text). now rewrite E, app_nil_r.
Qed.

(** X20. Whatever [detect] returns, its matches are signatures of the
    database, each at most as often as the database has it and in the
    order of the database: they are what a selection keeps of it. *)
Theorem detect_matches_from_database lower self p supplied_protocol data :
  exists result keep,
    detect lower self p supplied_protocol data = Ok result
    /\ matches result = filter keep (signatures (database self))
    /\ Forall (fun sig => In sig (signatures (database self))) (matches result).
Proof.
  destruct (detect_returns lower self p supplied_protocol data) as [result Hd].
  assert (Hkeep : exists keep,
             matches result = filter keep (signatures (database self))).
  { unfold detect in Hd.
    assert (Hport : Ok (detect_by_port lower self p supplied_protocol) = Ok result ->
                    exists keep,
                      matches result = filter keep (signatures (database self))).
    { intros H. apply Ok_inj in H. subst result.
      exists (fun sig => matches_port lower sig p supplied_protocol).
      apply detect_by_port_fields. }
    destruct data as [[|b0 d]|]; [now apply Hport | | now apply Hport].
    simpl in Hd. now apply detect_by_data_matches_filter in Hd. }
  destruct Hkeep as [keep Hkeep].
  exists result, keep. split; [exact Hd|]. split; [exact Hkeep|].
  rewrite Hkeep. apply Forall_forall. intros sig Hin.
  now apply filter_In in Hin.
Qed.

(** * The command line *)

Lemma get_best_match_nonempty self :
  truthy_list (matches self) = true ->
  exists best, get_best_match self = Some best /\ hd_error (matches self) = Some best.
Proof.
  unfold get_best_match. destruct (matches self) as [|best rest]; [discriminate|].
  intros _. exists best. split; reflexivity.
Qed.

(** X21. Once [parse_args] has returned the namespace, [main] never ends
    in the [AttributeError] of its best match.  It returns 1 exactly when,
    without [--list], [--info] names a signature that the default database
    does not have: it then prints nothing but the error, on the error
    stream.  For every other namespace it returns 0 and prints on the
    output stream only. *)
Theorem main_return_code lower upper args :
  outcome_of (main lower upper args) <> AttributeError
  /\ (outcome_of (main lower upper args) = Return 1 <->
      arg_list args = false
      /\ exists info,
           arg_info args = Some info /\ info <> []
           /\ find_by_name (SignatureDatabase_init lower) info = None)
  /\ (outcome_of (main lower upper args) = Return 1 ->
      stdout (main lower upper args) = []
      /\ stderr (main lower upper args)
         = [error_not_found (get (arg_info args) [])])
  /\ (outcome_of (main lower upper args) <> Return 1 ->
      outcome_of (main lower upper args) = Return 0
      /\ stderr (main lower upper args) = []
      /\ stdout (main lower upper args) <> []).
Proof.
  unfold main.
  change (database (SignatureDetector_init lower None))
    with (SignatureDatabase_init lower).
  destruct (arg_list args) eqn:Hlist.
  { (* --list *)
    destruct (arg_json args); cbn [outcome_of stdout stderr];
      (split; [discriminate|]);
      (split; [split; [discriminate | intros [H _]; discriminate]|]);
      (split; [discriminate|]); intros _; repeat split; discriminate. }
  destruct (truthy_str (arg_info args)) eqn:Hinfo.
  { (* --info *)
    destruct (arg_info args) as [info|] eqn:Ei; [|discriminate].
    cbn [get]. simpl in Hinfo. apply truthy_list_true in Hinfo.
    destruct (find_by_name (SignatureDatabase_init lower) info) as [sig|] eqn:Hfind.
    - destruct (arg_json args); cbn [outcome_of stdout stderr];
        (split; [discriminate|]);
        (split; [split; [discriminate
                        | intros [_ [info' [Hi [_ Hnone]]]];
                          injection Hi as <-; congruence]|]);
        (split; [discriminate|]); intros _; repeat split; discriminate.
    - cbn [outcome_of stdout stderr].
      split; [discriminate|]. split; [|split].
      + split; [|reflexivity]. intros _. split; [reflexivity|].
        exists info. auto.
      + intros _. split; reflexivity.
      + congruence. }
  (* --port, or nothing *)
  assert (Hno1 : ~ (false = false /\ exists info,
                      arg_info args = Some info /\ info <> []
                      /\ find_by_name (SignatureDatabase_init lower) info = None)).
  { intros [_ [info [Hi [Hne _]]]]. rewrite Hi in Hinfo. simpl in Hinfo.
    apply truthy_list_true in Hne. congruence. }
  assert (Hhelp : forall r : run,
            r = {| stdout := [print_help]; stderr := []; outcome_of := Return 0 |} ->
            outcome_of r <> AttributeError
            /\ (outcome_of r = Return 1 <->
                false = false /\ exists info,
                  arg_info args = Some info /\ info <> []
                  /\ find_by_name (SignatureDatabase_init lower) info = None)
            /\ (outcome_of r = Return 1 ->
                stdout r = [] /\ stderr r = [error_not_found (get (arg_info args) [])])
            /\ (outcome_of r <> Return 1 ->
                outcome_of r = Return 0 /\ stderr r = [] /\ stdout r <> [])).
  { intros r ->. cbn [outcome_of stdout stderr].
    split; [discriminate|].
    split; [split; [discriminate | intros H; now apply Hno1 in H]|].
    split; [discriminate|]. intros _. repeat split; discriminate. }
  destruct (arg_port args) as [p|]; [|now apply Hhelp].
  destruct (truthy_int p); [|now apply Hhelp].
  set (result := detect_by_port lower (SignatureDetector_init lower None) p
                   (arg_protocol args)).
  destruct (arg_json args).
  { cbn [outcome_of stdout stderr]. split; [discriminate|].
    split; [split; [discriminate | intros H; now apply Hno1 in H]|].
    split; [discriminate|]. intros _. repeat split; discriminate. }
  destruct (truthy_list (matches result)) eqn:Hm.
  - destruct (get_best_match_nonempty result Hm) as [best [Hbest _]].
    rewrite Hbest. cbn [outcome_of stdout stderr]. split; [discriminate|].
    split; [split; [discriminate | intros H; now apply Hno1 in H]|].
    split; [discriminate|]. intros _. repeat split; discriminate.
  - cbn [outcome_of stdout stderr]. split; [discriminate|].
    split; [split; [discriminate | intros H; now apply Hno1 in H]|].
    split; [discriminate|]. intros _. repeat split; discriminate.
Qed.

(** X22. Every signature that [--list] shows can be asked for with
    [--info] by its name: [main] then returns 0 and prints that signature,
    and nothing on the error stream. *)
Theorem main_info_of_listed lower upper args sig :
  In sig (signatures (SignatureDatabase_init lower)) ->
  arg_list args = false ->
  arg_info args = Some (name sig) ->
  find_by_name (SignatureDatabase_init lower) (name sig) = Some sig
  /\ outcome_of (main lower upper args) = Return 0
  /\ stderr (main lower upper args) = []
  /\ stdout (main lower upper args)
     = (if arg_json args then [json_dumps_signature (to_dict sig)]
        else [info_signature (name sig); info_port (port sig);
              info_protocol (upper (protocol sig));
              info_description (description sig)]
             ++ (if truthy_list (patterns sig) then [info_patterns (patterns sig)]
                 else [])).
Proof.
  intros Hin Hlist Hinfo.
  assert (Hfind : find_by_name (SignatureDatabase_init lower) (name sig) = Some sig
                  /\ truthy_list (name sig) = true).
  { simpl in Hin.
    repeat (destruct Hin as [<- | Hin]; [split; reflexivity|]).
    contradiction. }
  destruct Hfind as [Hfind Hname].
  split; [exact Hfind|].
  unfold main.
  change (database (SignatureDetector_init lower None))
    with (SignatureDatabase_init lower).
  rewrite Hlist, Hinfo. cbn [truthy_str get]. rewrite Hname, Hfind.
  destruct (arg_json args); repeat split.
Qed.

(** X23. Without [--list] and [--info], [main] detects by the port when
    one is given that is not zero, and prints the help for no port and for
    the port 0.  It returns 0.  With [--json] it prints the dictionary of
    the result, whose confidence is 0.7 when a signature matches and 0.0
    when none does.  Without, it prints the first match as the service,
    with the confidence 0.7, and every further match as another possible
    one, or that no signature is known. *)
Theorem main_port lower upper args :
  arg_list args = false ->
  truthy_str (arg_info args) = false ->
  let help := {| stdout := [print_help]; stderr := []; outcome_of := Return 0 |} in
  let found p :=
    find_by_port lower (SignatureDatabase_init lower) p (arg_protocol args) in
  (arg_port args = None -> main lower upper args = help)
  /\ (arg_port args = Some 0 -> main lower upper args = help)
  /\ (forall p,
        arg_port args = Some p -> p <> 0 -> arg_json args = true ->
        main lower upper args
        = {| stdout :=
               [json_dumps_result
                  {| rd_port := p;
                     rd_protocol := arg_protocol args;
                     rd_matches := List.map name (found p);
                     rd_best_match := hd_error (List.map name (found p));
                     rd_confidence :=
                       if truthy_list (found p) then 0.7%Q else 0.0%Q |}];
             stderr := [];
             outcome_of := Return 0 |})
  /\ (forall p,
        arg_port args = Some p -> p <> 0 -> arg_json args = false ->
        found p = [] ->
        main lower upper args
        = {| stdout := [no_known_signature p (upper (arg_protocol args))];
             stderr := [];
             outcome_of := Return 0 |})
  /\ (forall p first others,
        arg_port args = Some p -> p <> 0 -> arg_json args = false ->
        found p = first :: others ->
        main lower upper args
        = {| stdout :=
               [detected_as p (upper (arg_protocol args));
                service (name first);
                service_description (description first);
                service_confidence 0.7%Q]
               ++ (if truthy_list others
                   then other_possible_matches
                        :: List.map
                             (fun sig => other_match (name sig) (description sig))
                             others
                   else []);
             stderr := [];
             outcome_of := Return 0 |}).
Proof.
  intros Hlist Hinfo help found.
  unfold main.
  change (database (SignatureDetector_init lower None))
    with (SignatureDatabase_init lower).
  rewrite Hlist, Hinfo.
  split; [intros ->; reflexivity|]. split; [intros ->; reflexivity|].
  assert (Hfields : forall p,
            let result := detect_by_port lower (SignatureDetector_init lower None)
                            p (arg_protocol args) in
            r_port result = p /\ r_protocol result = arg_protocol args
            /\ matches result = found p
            /\ confidence result = (if truthy_list (found p) then 0.7%Q else 0.0%Q)).
  { intros p. apply detect_by_port_fields. }
  split; [|split].
  - intros p -> Hp ->. apply truthy_int_true in Hp. rewrite Hp.
    destruct (Hfields p) as [H1 [H2 [H3 H4]]].
    unfold DetectionResult_to_dict, get_best_match.
    rewrite H1, H2, H3, H4.
    destruct (found p); reflexivity.
  - intros p -> Hp -> Hnone. apply truthy_int_true in Hp. rewrite Hp.
    destruct (Hfields p) as [_ [_ [H3 _]]]. rewrite H3, Hnone. reflexivity.
  - intros p first others -> Hp -> Hsome. apply truthy_int_true in Hp. rewrite Hp.
    destruct (Hfields p) as [_ [_ [H3 H4]]].
    unfold get_best_match. rewrite H3, H4, Hsome. cbn [truthy_list negb nth_error].
    cbn [skipn List.length].
    destruct others as [|second others']; [reflexivity|].
    cbn [truthy_list List.length].
    assert ((1 <? Z.of_nat (S (S (List.length others')))) = true) as ->;
      [apply Z.ltb_lt; lia | reflexivity].
Qed.

(** * Concrete runs of the further properties *)

(** X6 on [any_signature] and the default database. *)
Lemma remove_signature_add_signature_witness :
  absent (name any_signature) (signatures (SignatureDatabase_init ascii_lower))
  /\ remove_signature
       (add_signature (SignatureDatabase_init ascii_lower) any_signature)
       (name any_signature)
     = (true, SignatureDatabase_init ascii_lower).
Proof.
  assert (H : absent (name any_signature)
                (signatures (SignatureDatabase_init ascii_lower))).
  { repeat constructor; discriminate. }
  split; [exact H|].
  apply (remove_signature_add_signature (SignatureDatabase_init ascii_lower)
           any_signature H).
Defined.

(** X8 on a signature built with the protocol [TCP]. *)
Lemma matches_port_constructed_witness :
  (forall s, ascii_lower (ascii_lower s) = ascii_lower s)
  /\ matches_port ascii_lower
       (Signature_init ascii_lower (u_lit "HTTP") 80 (u_lit "TCP") None [])
       80 (u_lit "Tcp") = true.
Proof.
  split; [exact ascii_lower_idempotent|].
  apply (matches_port_constructed ascii_lower (u_lit "HTTP") 80 (u_lit "TCP")
           None [] 80 (u_lit "Tcp") ascii_lower_idempotent).
  split; reflexivity.
Defined.

(** X11 on the import of [telnet_record]. *)
Lemma load_from_file_stable_witness :
  load_from_file ascii_lower [telnet_record] (SignatureDatabase_init ascii_lower)
  = (Ok tt,
     {| signatures :=
          [Signature_init ascii_lower (u_lit "Telnet") 23 (u_lit "tcp") None []] |})
  /\ load_from_file ascii_lower
       (save_to_file
          {| signatures :=
               [Signature_init ascii_lower (u_lit "Telnet") 23 (u_lit "tcp")
                  None []] |})
       (database any_detector)
     = (Ok tt,
        {| signatures :=
             [Signature_init ascii_lower (u_lit "Telnet") 23 (u_lit "tcp")
                None []] |}).
Proof.
  assert (H : load_from_file ascii_lower [telnet_record]
                (SignatureDatabase_init ascii_lower)
              = (Ok tt,
                 {| signatures :=
                      [Signature_init ascii_lower (u_lit "Telnet") 23 (u_lit "tcp")
                         None []] |})) by reflexivity.
  split; [exact H|].
  apply (load_from_file_stable ascii_lower [telnet_record]
           (SignatureDatabase_init ascii_lower) (database any_detector) _
           ascii_lower_idempotent H).
Defined.

(** X12 on the banner of an SSH server. *)
Lemma matches_pattern_ascii_witness :
  Forall (fun b => byte_val b < 0x80) (b_lit "SSH-2.0-OpenSSH_8.2p1")
  /\ matches_pattern
       (Signature_init ascii_lower (u_lit "SSH") 22 (u_lit "tcp")
          (Some [u_lit "SSH-2.0"; u_lit "SSH-1.99"]) [])
       (b_lit "SSH-2.0-OpenSSH_8.2p1")
     = Ok true.
Proof.
  assert (H : Forall (fun b => byte_val b < 0x80) (b_lit "SSH-2.0-OpenSSH_8.2p1")).
  { repeat constructor. }
  split; [exact H|].
  rewrite (proj1 (matches_pattern_ascii
                    (Signature_init ascii_lower (u_lit "SSH") 22 (u_lit "tcp")
                       (Some [u_lit "SSH-2.0"; u_lit "SSH-1.99"]) [])
                    (b_lit "SSH-2.0-OpenSSH_8.2p1") H)).
  reflexivity.
Defined.

(** X16 on the DNS signature, found by its port for a sample that matches
    no pattern. *)
Lemma patternless_only_by_port_witness :
  let dns :=
    Signature_init ascii_lower (u_lit "DNS") 53 (u_lit "udp") (Some [])
      (u_lit "Domain Name System") in
  let result :=
    add_matches [(dns, 0.5%Q)] (DetectionResult_init 53 (u_lit "UDP")) in
  detect_by_data ascii_lower default_detector (b_lit "UNKNOWN") (Some 53)
    (u_lit "UDP") = Ok result
  /\ In dns (matches result)
  /\ patterns dns = []
  /\ confidence result = 0.5%Q.
Proof.
  intros dns result.
  assert (H1 : detect_by_data ascii_lower default_detector (b_lit "UNKNOWN")
                 (Some 53) (u_lit "UDP") = Ok result) by reflexivity.
  assert (H2 : In dns (matches result)) by (left; reflexivity).
  assert (H3 : patterns dns = []) by reflexivity.
  split; [exact H1|]. split; [exact H2|]. split; [exact H3|].
  exact (proj1 (patternless_only_by_port ascii_lower default_detector
                  (b_lit "UNKNOWN") (Some 53) (u_lit "UDP") result dns H1 H2 H3)).
Defined.

(** X22 on [--info SSH]. *)
Lemma main_info_of_listed_witness :
  let ssh :=
    Signature_init ascii_lower (u_lit "SSH") 22 (u_lit "tcp")
      (Some [u_lit "SSH-2.0"; u_lit "SSH-1.99"]) (u_lit "Secure Shell Protocol") in
  let args :=
    {| arg_port := None; arg_protocol := u_lit "tcp"; arg_list := false;
       arg_info := Some (u_lit "SSH"); arg_json := true |} in
  In ssh (signatures (SignatureDatabase_init ascii_lower))
  /\ outcome_of (main ascii_lower ascii_upper args) = Return 0
  /\ stdout (main ascii_lower ascii_upper args) = [json_dumps_signature (to_dict ssh)].
Proof.
  intros ssh args.
  assert (H : In ssh (signatures (SignatureDatabase_init ascii_lower))).
  { right. right. left. reflexivity. }
  split; [exact H|].
  destruct (main_info_of_listed ascii_lower ascii_upper args ssh H eq_refl eq_refl)
    as [_ [Hcode [_ Hout]]].
  split; [exact Hcode | exact Hout].
Defined.

(** X23 on [--port 0]. *)
Lemma main_port_witness :
  main ascii_lower ascii_upper
    {| arg_port := Some 0; arg_protocol := u_lit "tcp"; arg_list := false;
       arg_info := None; arg_json := false |}
  = {| stdout := [print_help]; stderr := []; outcome_of := Return 0 |}.
Proof.
  apply (main_port ascii_lower ascii_upper
           {| arg_port := Some 0; arg_protocol := u_lit "tcp"; arg_list := false;
              arg_info := None; arg_json := false |} eq_refl eq_refl).
  reflexivity.
Defined.
